(** * Missouri IFP guided interview: interview state machine and PDF overlay

    A shallow embedding of [app.py].  Python values that reach the handlers
    are modelled by [pyval]; exceptions by the [py] result type; the session
    dictionary by a record whose [answers] field is a [gmap string string];
    Python floats by IEEE binary64 values of [spec_float]. *)

From Stdlib Require Import ZArith String Ascii List Lia.
From Stdlib Require Import DecimalString DecimalZ SpecFloat.
From stdpp Require Import gmap strings list.

Local Open Scope Z_scope.

(** ** Exceptions and the result type *)

Inductive exn_kind :=
  | IndexError | ValueError | TypeError | OverflowError
  | FileNotFoundError | PdfReadError | CanvasError.

(** An exception object: its class and [str(e)]. *)
Record exn := Exn { exn_class : exn_kind; exn_msg : string }.

Inductive py (A : Type) :=
  | Ok (a : A)
  | Raise (e : exn).
Arguments Ok {A} a.
Arguments Raise {A} e.

#[global] Instance py_ret : MRet py := fun A a => Ok a.
#[global] Instance py_bind : MBind py := fun A B f m =>
  match m with Ok a => f a | Raise e => Raise e end.

(** [try: body  except Exception: handler] *)
Definition try_except {A} (body : py A) (handler : exn -> py A) : py A :=
  match body with Ok a => Ok a | Raise e => handler e end.

Definition returns {A} (m : py A) : Prop := exists a, m = Ok a.

(** ** Python values delivered by the widgets *)

Inductive pyval :=
  | VNone
  | VBool (b : bool)
  | VInt (z : Z)
  | VFloat (f : spec_float)
  | VStr (s : string).

(** ** Integers and strings *)

(** [str(z)] for an int. *)
Definition str_int (z : Z) : string := NilZero.string_of_int (Z.to_int z).

(** [len(s)] as an integer. *)
Definition len {A} (l : list A) : Z := Z.of_nat (length l).

(** [l[i]] with Python's negative indices and [IndexError]. *)
Definition py_index {A} (l : list A) (i : Z) : py A :=
  let j := if i <? 0 then i + len l else i in
  if (j <? 0) || (len l <=? j) then Raise (Exn IndexError "list index out of range")
  else match l !! Z.to_nat j with
       | Some x => Ok x
       | None => Raise (Exn IndexError "list index out of range")
       end.

Definition ascii_code (c : ascii) : Z := Z.of_nat (nat_of_ascii c).

Definition is_digit (c : ascii) : bool :=
  (48 <=? ascii_code c) && (ascii_code c <=? 57).

Definition digit_val (c : ascii) : Z := ascii_code c - 48.

(** ASCII lower-casing, for the case-insensitive match of inf and nan. *)
Definition lower (c : ascii) : ascii :=
  if (65 <=? ascii_code c) && (ascii_code c <=? 90)
  then ascii_of_nat (nat_of_ascii c + 32) else c.

Definition chars (s : string) : list ascii := list_ascii_of_string s.
Definition of_chars (l : list ascii) : string := string_of_list_ascii l.

(** ** Floats: IEEE binary64 *)

(** Quotient [n / d] rounded to the nearest integer, ties to even
    ([0 <= n], [0 < d]). *)
Definition div_half_even (n d : Z) : Z :=
  let q := n / d in
  let r := n mod d in
  if 2 * r <? d then q
  else if d <? 2 * r then q + 1
  else if Z.even q then q else q + 1.

(** The binary64 value nearest to [(-1)^s * n / d], ties to even; values
    beyond the largest finite double become an infinity. *)
Definition round_double (s : bool) (n d : Z) : spec_float :=
  if n =? 0 then S754_zero s else
  let e1 := Z.log2 n - Z.log2 d - 52 in
  let scaled := if e1 <? 0 then (n * 2 ^ (- e1)) / d else n / (d * 2 ^ e1) in
  let e2 := if 2 ^ 52 <=? scaled then e1 else e1 - 1 in
  let e := Z.max e2 (-1074) in
  let q := if e <? 0 then div_half_even (n * 2 ^ (- e)) d
           else div_half_even n (d * 2 ^ e) in
  let '(q, e) := if q =? 2 ^ 53 then (2 ^ 52, e + 1) else (q, e) in
  if q =? 0 then S754_zero s
  else if 971 <? e then S754_infinity s
  else S754_finite s (Z.to_pos q) e.

(** [n.is_integer()] *)
Definition is_integer (f : spec_float) : bool :=
  match f with
  | S754_zero _ => true
  | S754_finite _ m e => if 0 <=? e then true else Z.pos m mod 2 ^ (- e) =? 0
  | S754_infinity _ | S754_nan => false
  end.

(** [int(n)]: truncation toward zero. *)
Definition int_of_float (f : spec_float) : py Z :=
  match f with
  | S754_zero _ => Ok 0
  | S754_finite s m e =>
      let a := if 0 <=? e then Z.pos m * 2 ^ e else Z.pos m / 2 ^ (- e) in
      Ok (if s then - a else a)
  | S754_infinity _ => Raise (Exn OverflowError "cannot convert float infinity to integer")
  | S754_nan => Raise (Exn ValueError "cannot convert float NaN to integer")
  end.

(** The magnitude [m * 2^e], in hundredths, rounded half to even. *)
Definition hundredths (m : positive) (e : Z) : Z :=
  if 0 <=? e then Z.pos m * 100 * 2 ^ e
  else div_half_even (Z.pos m * 100) (2 ^ (- e)).

Definition two_digits (k : Z) : string :=
  (if k <? 10 then "0" else "") +:+ str_int k.

Definition fixed2 (s : bool) (k : Z) : string :=
  (if s then "-" else "") +:+ str_int (k / 100) +:+ "." +:+ two_digits (k mod 100).

(** [f"{n:.2f}"] *)
Definition format_2f (f : spec_float) : string :=
  match f with
  | S754_zero s => fixed2 s 0
  | S754_finite s m e => fixed2 s (hundredths m e)
  | S754_infinity s => if s then "-inf" else "inf"
  | S754_nan => "nan"
  end.

(** ** [float(s)] on a string

    A [string] is read as a sequence of code points below 256.  The steps
    follow CPython: non-ASCII spaces become blanks and any other non-ASCII
    character ends the text with a question mark; underscores are accepted
    between digits only; surrounding white space is dropped; what remains
    must be, in full, a signed [inf], [infinity], [nan] or decimal literal. *)

Definition is_space (c : ascii) : bool :=
  let n := ascii_code c in ((9 <=? n) && (n <=? 13)) || (n =? 32).

Fixpoint to_ascii_decimal (l : list ascii) : list ascii :=
  match l with
  | [] => []
  | c :: l' =>
      let n := ascii_code c in
      if n <? 127 then c :: to_ascii_decimal l'
      else if (n =? 133) || (n =? 160) then " "%char :: to_ascii_decimal l'
      else ["?"%char]
  end.

Definition is_underscore (c : ascii) : bool := ascii_code c =? 95.

Fixpoint strip_underscores (prev : ascii) (l : list ascii) : option (list ascii) :=
  match l with
  | [] => if is_underscore prev then None else Some []
  | c :: l' =>
      if is_underscore c then
        if is_digit prev then strip_underscores c l' else None
      else if is_underscore prev && negb (is_digit c) then None
      else cons c <$> strip_underscores c l'
  end.

Fixpoint drop_spaces (l : list ascii) : list ascii :=
  match l with
  | c :: l' => if is_space c then drop_spaces l' else l
  | [] => []
  end.

Definition strip (l : list ascii) : list ascii :=
  rev (drop_spaces (rev (drop_spaces l))).

Fixpoint span_digits (l : list ascii) : list ascii * list ascii :=
  match l with
  | c :: l' =>
      if is_digit c then let '(ds, r) := span_digits l' in (c :: ds, r)
      else ([], l)
  | [] => ([], [])
  end.

Definition digits_val (l : list ascii) : Z :=
  foldl (fun a c => 10 * a + digit_val c) 0 l.

Definition take_sign (l : list ascii) : bool * list ascii :=
  match l with
  | c :: l' =>
      if ascii_code c =? 45 then (true, l')
      else if ascii_code c =? 43 then (false, l')
      else (false, l)
  | [] => (false, [])
  end.

(** The exponent part, which must reach the end of the text. *)
Definition parse_exponent (l : list ascii) : option Z :=
  match l with
  | [] => Some 0
  | c :: r =>
      if ascii_code (lower c) =? 101 then
        let '(neg, r') := take_sign r in
        match span_digits r' with
        | (c' :: ds, []) =>
            let v := digits_val (c' :: ds) in Some (if neg then - v else v)
        | _ => None
        end
      else None
  end.

(** An unsigned decimal literal as [(digits, power of ten)]. *)
Definition parse_number (l : list ascii) : option (Z * Z) :=
  let '(ip, r1) := span_digits l in
  let '(fp, r2) :=
    match r1 with
    | c :: r => if ascii_code c =? 46 then span_digits r else ([], r1)
    | [] => ([], r1)
    end in
  match ip ++ fp with
  | [] => None
  | ds => e ← parse_exponent r2; Some (digits_val ds, e - len fp)
  end.

Definition float_of_decimal (s : bool) (m e10 : Z) : spec_float :=
  if 0 <=? e10 then round_double s (m * 10 ^ e10) 1
  else round_double s m (10 ^ (- e10)).

Definition parse_float (l : list ascii) : option spec_float :=
  let '(s, body) := take_sign l in
  let low := of_chars (map lower body) in
  if String.eqb low "inf" || String.eqb low "infinity" then Some (S754_infinity s)
  else if String.eqb low "nan" then Some S754_nan
  else '(m, e10) ← parse_number body; Some (float_of_decimal s m e10).

Definition float_of_string (s : string) : py spec_float :=
  let bad := Raise (Exn ValueError "could not convert string to float") in
  match strip_underscores "000"%char (to_ascii_decimal (chars s)) with
  | None => bad
  | Some l =>
      match parse_float (strip l) with
      | Some f => Ok f
      | None => bad
      end
  end.

(** ** [str(f)] on a float: the shortest decimal text that reads back as [f] *)

Definition float_same (a b : spec_float) : bool :=
  match a, b with
  | S754_finite s m e, S754_finite s' m' e' =>
      Bool.eqb s s' && Pos.eqb m m' && (e =? e')
  | S754_zero s, S754_zero s' => Bool.eqb s s'
  | S754_infinity s, S754_infinity s' => Bool.eqb s s'
  | S754_nan, S754_nan => true
  | _, _ => false
  end.

Definition ndigits (z : Z) : Z := Z.of_nat (String.length (str_int z)).

(** The [t] with [10^t <= n/d < 10^(t+1)], for positive [n] and [d]. *)
Definition dec_exponent (n d : Z) : Z :=
  if d <=? n then ndigits (n / d) - 1
  else let j := ndigits (d / n) in
       if d <=? n * 10 ^ (j - 1) then - (j - 1) else - j.

(** The candidate with [nd] significant digits nearest to [n/d] among
    those that read back as [f], as [(digits, power of ten)]. *)
Definition candidate (f : spec_float) (n d nd : Z) : option (Z * Z) :=
  let k := dec_exponent n d - nd + 1 in
  let '(sn, sd) := if 0 <=? k then (n, d * 10 ^ k) else (n * 10 ^ (- k), d) in
  let lo := sn / sd in
  let hi := lo + 1 in
  let ok c := float_same (float_of_decimal false c k) f in
  let lo_nearer :=
    (2 * sn <? (2 * lo + 1) * sd) || ((2 * sn =? (2 * lo + 1) * sd) && Z.even lo) in
  match ok lo, ok hi with
  | true, true => Some (if lo_nearer then lo else hi, k)
  | true, false => Some (lo, k)
  | false, true => Some (hi, k)
  | false, false => None
  end.

Fixpoint shortest (f : spec_float) (n d nd : Z) (fuel : nat) : Z * Z :=
  match fuel with
  | O => (n / d, 0)
  | S fuel' =>
      match candidate f n d nd with
      | Some r => r
      | None => shortest f n d (nd + 1) fuel'
      end
  end.

Fixpoint drop_zeros (digs k : Z) (fuel : nat) : Z * Z :=
  match fuel with
  | O => (digs, k)
  | S fuel' =>
      if (digs mod 10 =? 0) && negb (digs =? 0) then drop_zeros (digs / 10) (k + 1) fuel'
      else (digs, k)
  end.

Definition zeros (n : Z) : string := of_chars (replicate (Z.to_nat n) "0"%char).

Definition repr_digits (ds : string) (decpt : Z) : string :=
  let n := Z.of_nat (String.length ds) in
  if (-4 <? decpt) && (decpt <=? 16) then
    if decpt <=? 0 then "0." +:+ zeros (- decpt) +:+ ds
    else if n <=? decpt then ds +:+ zeros (decpt - n) +:+ ".0"
    else substring 0 (Z.to_nat decpt) ds +:+ "." +:+
         substring (Z.to_nat decpt) (Z.to_nat (n - decpt)) ds
  else
    let ex := decpt - 1 in
    substring 0 1 ds +:+
    (if 1 <? n then "." +:+ substring 1 (Z.to_nat (n - 1)) ds else "") +:+
    "e" +:+ (if ex <? 0 then "-" else "+") +:+
    (if Z.abs ex <? 10 then "0" else "") +:+ str_int (Z.abs ex).

Definition float_repr (f : spec_float) : string :=
  match f with
  | S754_zero s => if s then "-0.0" else "0.0"
  | S754_infinity s => if s then "-inf" else "inf"
  | S754_nan => "nan"
  | S754_finite s m e =>
      let '(n, d) := if 0 <=? e then (Z.pos m * 2 ^ e, 1) else (Z.pos m, 2 ^ (- e)) in
      let '(digs, k) := shortest (S754_finite false m e) n d 1 17 in
      let '(digs, k) := drop_zeros digs k 18 in
      (if s then "-" else "") +:+ repr_digits (str_int digs) (ndigits digs + k)
  end.

(** ** Conversions on values *)

(** [float(value)] *)
Definition py_float (v : pyval) : py spec_float :=
  match v with
  | VNone => Raise (Exn TypeError "float() argument must be a string or a real number, not 'NoneType'")
  | VBool b => Ok (if b then round_double false 1 1 else S754_zero false)
  | VInt z =>
      match round_double (z <? 0) (Z.abs z) 1 with
      | S754_infinity _ => Raise (Exn OverflowError "int too large to convert to float")
      | f => Ok f
      end
  | VFloat f => Ok f
  | VStr s => float_of_string s
  end.

(** [sys.int_info.default_max_str_digits]: the limit on the digits of an
    int that [str] converts, which the program leaves at its default. *)
Definition int_max_str_digits : Z := 4300.

(** [str(z)] for an int [z] of any size: refused with [ValueError] when
    [z] has more digits than the limit, the sign not counted. *)
Definition py_str_int (z : Z) : py string :=
  if int_max_str_digits <? ndigits (Z.abs z) then
    Raise (Exn ValueError
      ("Exceeds the limit (4300 digits) for integer string conversion; " +:+
       "use sys.set_int_max_str_digits() to increase the limit"))
  else Ok (str_int z).

(** [str(value)] *)
Definition py_str (v : pyval) : py string :=
  match v with
  | VNone => Ok "None"
  | VBool b => Ok (if b then "True" else "False")
  | VInt z => py_str_int z
  | VFloat f => Ok (float_repr f)
  | VStr s => Ok s
  end.

(** ** Configuration *)

Definition TEMPLATE_PDF_PATH : string := "Missouri - InFormaPauperis.pdf".

(** key -> (page_index, x, y), in the order of the dictionary literal. *)
Definition PDF_FIELD_POSITIONS : list (string * (Z * Z * Z)) :=
  [ ("full_name", (0, 120, 700));
    ("address", (0, 120, 680));
    ("city_state_zip", (0, 120, 660));
    ("phone", (0, 120, 640));
    ("email", (0, 360, 640));
    ("case_type", (0, 120, 615));
    ("employment_status", (0, 120, 590));
    ("monthly_income", (0, 120, 570));
    ("cash_on_hand", (0, 120, 550));
    ("bank_balance", (0, 120, 530));
    ("monthly_expenses", (0, 120, 510));
    ("dependents", (0, 120, 490));
    ("government_assistance", (0, 120, 470));
    ("debts", (0, 120, 450));
    ("hardship_explanation", (0, 120, 420));
    ("date_signed", (0, 120, 160));
    ("signature_name", (0, 360, 160)) ].

Record Question := mkQuestion {
  key : string;
  label : string;
  qtype : string;
  choices : option (list string);
  placeholder : string
}.

#[global] Instance Question_eq_dec : EqDecision Question.
Proof. solve_decision. Defined.

Definition QUESTIONS : list Question :=
  [ mkQuestion "full_name" "Your full legal name" "text" None "Jane Doe";
    mkQuestion "address" "Street address" "text" None "123 Main St";
    mkQuestion "city_state_zip" "City, State, ZIP" "text" None "Springfield, MO 65807";
    mkQuestion "phone" "Phone number" "text" None "(555) 555-5555";
    mkQuestion "email" "Email (optional)" "text" None "name@example.com";
    mkQuestion "case_type" "Type of case" "radio"
      (Some [ "Dissolution of Marriage (Divorce)"; "Legal Separation";
              "Modification/Post-Decree"; "Other Family Law" ]) "";
    mkQuestion "employment_status" "Employment status" "radio"
      (Some [ "Employed"; "Unemployed"; "Self-employed"; "Disabled"; "Retired" ]) "";
    mkQuestion "monthly_income" "Total monthly income (USD)" "number" None "0";
    mkQuestion "cash_on_hand" "Cash on hand (USD)" "number" None "0";
    mkQuestion "bank_balance" "Total bank account balances (USD)" "number" None "0";
    mkQuestion "monthly_expenses" "Average monthly expenses (USD)" "number" None "0";
    mkQuestion "dependents" "Number of dependents you support" "number" None "0";
    mkQuestion "government_assistance"
      "Do you receive public benefits? If yes, list programs." "multiline" None
      "Example: SNAP, Medicaid, TANF";
    mkQuestion "debts" "Briefly list significant debts" "multiline" None
      "Credit cards, medical bills, etc.";
    mkQuestion "hardship_explanation" "Explain why you cannot afford filing fees"
      "multiline" None "Briefly describe your financial hardship.";
    mkQuestion "date_signed" "Date (MM/DD/YYYY)" "text" None "MM/DD/YYYY";
    mkQuestion "signature_name" "Type your name as signature" "text" None "Jane Doe" ].

(** ** Interview state *)

Record State := mkState {
  step : Z;
  answers : gmap string string
}.

Definition default_state : State :=
  {| step := 0;
     answers := foldl (fun m q => <[key q := ""]> m) ∅ QUESTIONS |}.

Definition current_question (step : Z) : py Question :=
  let step := Z.max 0 (Z.min step (len QUESTIONS - 1)) in
  py_index QUESTIONS step.

Definition normalize_value (value : pyval) (qtype : string) : py string :=
  match value with
  | VNone => Ok ""
  | _ =>
      if String.eqb qtype "number" then
        try_except
          (n ← py_float value;
           (* the integer value of a float has at most 309 digits *)
           if is_integer n then z ← int_of_float n; Ok (str_int z)
           else Ok (format_2f n))
          (fun _ => py_str value)
      else py_str value
  end.

(** ** Documents *)

(** What a page shows: content of the template itself, or a line of text
    placed by [drawString] in the font set before it. *)
Inductive item :=
  | Native (id : string)
  | Text (font : string) (size x y : Z) (s : string).

Definition page := list item.

(** ** Component updates *)

Inductive gr_update :=
  | UpdHidden                                   (* visible=False *)
  | UpdText (label value placeholder : string)  (* a visible text box *)
  | UpdNumber (label : string) (value : option spec_float) (placeholder : string)
  | UpdRadio (label : string) (choices : list string) (value : option string)
  | UpdInteractive (interactive : bool)
  | UpdValue (value : string)
  | UpdFile (value : option (list page)) (visible : bool).

(** [l.index(q)]; the message of the [ValueError] of [list.index] starts
    with [repr(q)], which is left out here. *)
Definition index_of (q : Question) (l : list Question) : py Z :=
  match list_find (fun q' => q' = q) l with
  | Some (i, _) => Ok (Z.of_nat i)
  | None => Raise (Exn ValueError "Question is not in list")
  end.

(** One input widget is shown at a time. *)
Definition ui_for_question (q : Question) (value : string)
  : py (gr_update * gr_update * gr_update * gr_update * string) :=
  let hidden := UpdHidden in
  let '(text_update, number_update, radio_update, multiline_update) :=
    if String.eqb (qtype q) "text" then
      (UpdText (label q) value (placeholder q), hidden, hidden, hidden)
    else if String.eqb (qtype q) "number" then
      let num_value :=
        if String.eqb value "" then None
        else match float_of_string value with Ok f => Some f | Raise _ => None end in
      (hidden, UpdNumber (label q) num_value (placeholder q), hidden, hidden)
    else if String.eqb (qtype q) "radio" then
      (hidden, hidden,
       UpdRadio (label q) (default [] (choices q))
                (if String.eqb value "" then None else Some value),
       hidden)
    else if String.eqb (qtype q) "multiline" then
      (hidden, hidden, hidden, UpdText (label q) value (placeholder q))
    else (hidden, hidden, hidden, hidden) in
  i ← index_of q QUESTIONS;
  let progress :=
    "Question " +:+ str_int (i + 1) +:+ " of " +:+ str_int (len QUESTIONS) in
  Ok (text_update, number_update, radio_update, multiline_update, progress).

(** ** Transitions *)

Definition handler_result : Type :=
  State * gr_update * gr_update * gr_update * gr_update * string
  * gr_update * gr_update.

Definition save_answer_and_move (state : State)
    (text_val number_val radio_val multiline_val : pyval) (delta : Z)
  : py handler_result :=
  let step0 := step state in
  q ← current_question step0;
  let raw_val :=
    if String.eqb (qtype q) "text" then text_val
    else if String.eqb (qtype q) "number" then number_val
    else if String.eqb (qtype q) "radio" then radio_val
    else if String.eqb (qtype q) "multiline" then multiline_val
    else VStr "" in
  v ← normalize_value raw_val (qtype q);
  let answers1 := <[key q := v]> (answers state) in
  let new_step := Z.max 0 (Z.min (step0 + delta) (len QUESTIONS - 1)) in
  let state1 := {| step := new_step; answers := answers1 |} in
  q2 ← current_question new_step;
  let existing := default "" (answers1 !! key q2) in
  '(text_u, num_u, radio_u, multi_u, prog) ← ui_for_question q2 existing;
  let can_go_back := 0 <? new_step in
  let is_last := new_step =? len QUESTIONS - 1 in
  Ok (state1, text_u, num_u, radio_u, multi_u, prog,
      UpdInteractive can_go_back,
      UpdValue (if is_last then "Finish & Generate PDF" else "Next")).

Definition start_interview (state : State)
  : py (handler_result * string) :=
  let state := default_state in
  q ← current_question 0;
  '(text_u, num_u, radio_u, multi_u, prog) ← ui_for_question q "";
  Ok (state, text_u, num_u, radio_u, multi_u, prog,
      UpdInteractive false, UpdValue "Next", "").

Definition on_back (state : State)
    (text_val number_val radio_val multiline_val : pyval) : py handler_result :=
  save_answer_and_move state text_val number_val radio_val multiline_val (-1).

(** ** The overlay compositor *)

(** The collaborators of [fill_pdf]: what is stored at [TEMPLATE_PDF_PATH],
    and the texts on which the canvas refuses to draw. *)
Inductive template_file :=
  | Missing                          (* os.path.exists is false *)
  | Unreadable (msg : string)        (* the file exists, PdfReader rejects it *)
  | Readable (pages : list page).

Record World := mkWorld {
  template : template_file;
  draw_failure : string -> option string
}.

Record canvas := mkCanvas {
  shown : list page;          (* pages closed by showPage *)
  current : page;             (* the page being drawn *)
  cur_font : string * Z
}.

Definition new_canvas : canvas :=
  {| shown := []; current := []; cur_font := ("Helvetica", 12) |}.

Definition setFont (c : canvas) (name : string) (size : Z) : canvas :=
  {| shown := shown c; current := current c; cur_font := (name, size) |}.

Definition drawString (w : World) (c : canvas) (x y : Z) (s : string) : py canvas :=
  match draw_failure w s with
  | Some msg => Raise (Exn CanvasError msg)
  | None =>
      Ok {| shown := shown c;
            current := current c ++ [Text (fst (cur_font c)) (snd (cur_font c)) x y s];
            cur_font := cur_font c |}
  end.

Definition showPage (c : canvas) : canvas :=
  {| shown := shown c ++ [current c]; current := []; cur_font := ("Helvetica", 12) |}.

(** [c.save()]: a page left open with content is closed first. *)
Definition save (c : canvas) : list page :=
  match current c with
  | [] => shown c
  | _ => shown (showPage c)
  end.

(** The inner loop over [PDF_FIELD_POSITIONS.items()]. *)
Fixpoint draw_fields (w : World) (answers : gmap string string) (page_index : Z)
    (fields : list (string * (Z * Z * Z))) (c : canvas) : py canvas :=
  match fields with
  | [] => Ok c
  | (k, (p_idx, x, y)) :: rest =>
      if negb (p_idx =? page_index) then draw_fields w answers page_index rest c
      else
        let value := default "" (answers !! k) in
        if negb (String.eqb value "") then
          c' ← drawString w (setFont c "Helvetica" 10) x y value;
          draw_fields w answers page_index rest c'
        else draw_fields w answers page_index rest c
  end.

(** The outer loop over [range(num_pages)]. *)
Fixpoint draw_pages (w : World) (answers : gmap string string)
    (indices : list Z) (c : canvas) : py canvas :=
  match indices with
  | [] => Ok c
  | page_index :: rest =>
      c' ← draw_fields w answers page_index PDF_FIELD_POSITIONS c;
      draw_pages w answers rest (showPage c')
  end.

Definition range (n : Z) : list Z := seqZ 0 n.

(** Returns the pages of the overlay file that the source names by path. *)
Definition create_overlay_pdf (w : World) (answers : gmap string string)
    (num_pages : Z) : py (list page) :=
  c ← draw_pages w answers (range num_pages) new_canvas;
  Ok (save c).

(** [base_page.merge_page(overlay_page)]: overlay content goes on top. *)
Definition merge_page (base overlay : page) : page := base ++ overlay.

(** The merge loop of [fill_pdf]. *)
Fixpoint merge_pages (tpl overlay : list page) (indices : list Z)
    (writer : list page) : py (list page) :=
  match indices with
  | [] => Ok writer
  | i :: rest =>
      base_page ← py_index tpl i;
      base_page' ←
        (if i <? len overlay then
           o ← py_index overlay i; Ok (merge_page base_page o)
         else Ok base_page);
      merge_pages tpl overlay rest (writer ++ [base_page'])
  end.

(** Returns the pages of the completed file that the source names by path. *)
Definition fill_pdf (w : World) (answers : gmap string string) : py (list page) :=
  match template w with
  | Missing =>
      Raise (Exn FileNotFoundError
        ("Template PDF not found at '" +:+ TEMPLATE_PDF_PATH +:+ "'. " +:+
         "Place the IFP form in the repository and update TEMPLATE_PDF_PATH if needed."))
  | Unreadable msg => Raise (Exn PdfReadError msg)
  | Readable tpl =>
      let num_pages := len tpl in
      overlay ← create_overlay_pdf w answers num_pages;
      merge_pages tpl overlay (range num_pages) []
  end.

Definition on_next_or_finish (w : World) (state : State)
    (text_val number_val radio_val multiline_val : pyval)
  : py (handler_result * gr_update * string) :=
  let at_last := step state =? len QUESTIONS - 1 in
  '(state, text_u, num_u, radio_u, multi_u, prog, back_u, next_u) ←
    save_answer_and_move state text_val number_val radio_val multiline_val
      (if at_last then 0 else 1);
  let '(download_update, status) :=
    if at_last then
      match fill_pdf w (answers state) with
      | Ok output => (UpdFile (Some output) true,
          "PDF generated successfully. Review and sign where required before filing.")
      | Raise e => (UpdFile None false, "Could not generate PDF: " +:+ exn_msg e)
      end
    else (UpdFile None false, "") in
  Ok (state, text_u, num_u, radio_u, multi_u, prog, back_u, next_u,
      download_update, status).

(** ** Sessions: [start] followed by forward and backward transitions *)

Inductive call :=
  | advance (text_val number_val radio_val multiline_val : pyval)
  | retreat (text_val number_val radio_val multiline_val : pyval).

Definition result_state (r : handler_result) : State :=
  let '(state, _, _, _, _, _, _, _) := r in state.

Definition apply_call (w : World) (state : State) (c : call) : py State :=
  match c with
  | advance t n r m =>
      '(hr, _, _) ← on_next_or_finish w state t n r m; Ok (result_state hr)
  | retreat t n r m =>
      hr ← on_back state t n r m; Ok (result_state hr)
  end.

Fixpoint apply_calls (w : World) (state : State) (cs : list call) : py State :=
  match cs with
  | [] => Ok state
  | c :: cs' => state' ← apply_call w state c; apply_calls w state' cs'
  end.

(** A session: the load event runs [start_interview] on the initial value
    of the state component, then the buttons are pressed. *)
Definition run (w : World) (cs : list call) : py State :=
  '(hr, _) ← start_interview default_state;
  apply_calls w (result_state hr) cs.

Definition clamp (i : Z) : Z := Z.max 0 (Z.min i (len QUESTIONS - 1)).

Definition schema_keys : gset string := list_to_set (key <$> QUESTIONS).

(** The widget value that [save_answer_and_move] reads for a question. *)
Definition raw_value (q : Question) (t n r m : pyval) : pyval :=
  if String.eqb (qtype q) "text" then t
  else if String.eqb (qtype q) "number" then n
  else if String.eqb (qtype q) "radio" then r
  else if String.eqb (qtype q) "multiline" then m
  else VStr "".

(** ** The explanation handler *)

(** The collaborators of [explain_question]: the environment variable, and
    what the [try] block obtains from the chat service for a key, a model, a
    temperature and the two messages: the content of the first choice, or
    the exception raised on the way to it. *)
Record Explainer := mkExplainer {
  OPENAI_API_KEY : option string;
  chat_content : string -> string -> spec_float -> string -> string -> py string
}.

(** [s.strip()]: white space among the code points below 256. *)
Definition is_py_space (c : ascii) : bool :=
  let n := ascii_code c in
  ((9 <=? n) && (n <=? 13)) || ((28 <=? n) && (n <=? 32)) || (n =? 133) || (n =? 160).

Fixpoint drop_py_spaces (l : list ascii) : list ascii :=
  match l with
  | c :: l' => if is_py_space c then drop_py_spaces l' else l
  | [] => []
  end.

Definition py_strip (s : string) : string :=
  of_chars (rev (drop_py_spaces (rev (drop_py_spaces (chars s))))).

Definition newline : string := String "010"%char "".

Definition explain_prompt (q : Question) : string :=
  "You are a legal information assistant for Missouri family law users. " +:+
  "Explain the following intake question in plain language (2-4 sentences). " +:+
  "Do NOT give legal advice. Keep it practical and neutral." +:+ newline +:+ newline +:+
  "Question: " +:+ label q.

Definition explain_question (x : Explainer) (state : State) : py string :=
  match OPENAI_API_KEY x with
  | None | Some "" =>
      Ok "Explanation unavailable: OPENAI_API_KEY is not configured."
  | Some api_key =>
      q ← current_question (step state);
      let prompt := explain_prompt q in
      try_except
        (content ← chat_content x api_key "gpt-4o-mini" (float_of_decimal false 2 (-1))
                     "You provide plain-language legal form guidance." prompt;
         Ok (py_strip content))
        (fun e => Ok ("Could not generate explanation right now: " +:+ exn_msg e))
  end.

(** * Vocabulary of the properties *)

(** What the forward handler reports besides the transition. *)
Definition finish_report (w : World) (at_last : bool) (a : gmap string string)
  : gr_update * string :=
  if at_last then
    match fill_pdf w a with
    | Ok output => (UpdFile (Some output) true,
        "PDF generated successfully. Review and sign where required before filing.")
    | Raise e => (UpdFile None false, "Could not generate PDF: " +:+ exn_msg e)
    end
  else (UpdFile None false, "").

Definition session_inv (st : State) : Prop :=
  0 <= step st <= len QUESTIONS - 1 /\ dom (answers st) = schema_keys.

(** The text that the field [f] puts on page [page_index], if any. *)
Definition field_text (answers : gmap string string) (page_index : Z)
    (f : string * (Z * Z * Z)) : option item :=
  let '(k, (p_idx, x, y)) := f in
  let value := default "" (answers !! k) in
  if (p_idx =? page_index) && negb (String.eqb value "")
  then Some (Text "Helvetica" 10 x y value) else None.

Definition page_texts (answers : gmap string string)
    (fields : list (string * (Z * Z * Z))) (page_index : Z) : list item :=
  omap (field_text answers page_index) fields.

(** Every text that would be drawn is accepted by the canvas. *)
Definition draws_ok (w : World) (answers : gmap string string)
    (fields : list (string * (Z * Z * Z))) : Prop :=
  forall k p x y, (k, (p, x, y)) ∈ fields ->
    default "" (answers !! k) <> "" ->
    draw_failure w (default "" (answers !! k)) = None.

(** Page [i] of the output: the template page with the overlay page, when
    there is one, put on top. *)
Definition merged (tpl overlay : list page) (i : Z) : page :=
  let base := default [] (tpl !! Z.to_nat i) in
  match overlay !! Z.to_nat i with
  | Some o => merge_page base o
  | None => base
  end.

Definition coords (f : string * (Z * Z * Z)) : Z * Z :=
  let '(_, (_, x, y)) := f in (x, y).

(** Is this item a text placed at [(x, y)]? *)
Definition item_at (x y : Z) (it : item) : bool :=
  match it with
  | Text _ _ x' y' _ => (x' =? x) && (y' =? y)
  | Native _ => false
  end.

(** A world whose canvas refuses one text, with a one-page template. *)
Definition refusing_world (bad : string) : World :=
  {| template := Readable [[Native "form"]];
     draw_failure := fun s => if String.eqb s bad then Some "cannot draw text" else None |}.

Definition two_answers : gmap string string :=
  <["address" := "12 Elm St"]> (<["full_name" := "Jane Doe"]> (answers default_state)).

(** The magnitude [m * 2^e] of a finite float as a fraction. *)
Definition magnitude (m : positive) (e : Z) : Z * Z :=
  if 0 <=? e then (Z.pos m * 2 ^ e, 1) else (Z.pos m, 2 ^ (- e)).

(** The float [f] is the whole number [z]. *)
Definition is_whole (f : spec_float) (z : Z) : Prop :=
  match f with
  | S754_zero _ => z = 0
  | S754_finite s m e =>
      let '(num, den) := magnitude m e in (if s then - z else z) * den = num
  | S754_infinity _ | S754_nan => False
  end.

(** Reading a decimal integer text back. *)
Definition int_of_str (s : string) : option Z :=
  Z.of_int <$> NilZero.int_of_string s.

(** The text [out] writes [k] hundredths with sign [s]: an integer part, a
    point, and exactly two digits. *)
Definition denotes_hundredths (s : bool) (k : Z) (out : string) : Prop :=
  exists ip fp,
    out = (if s then "-" else "") +:+ ip +:+ "." +:+ fp /\
    int_of_str ip = Some (k / 100) /\
    String.length fp = 2%nat /\
    int_of_str fp = Some (k mod 100).

(** The text [out] is [f] rounded to two decimal places: it writes the
    count [k] of hundredths nearest to the magnitude of [f]. *)
Definition is_two_decimals (f : spec_float) (out : string) : Prop :=
  match f with
  | S754_zero s => denotes_hundredths s 0 out
  | S754_finite s m e =>
      let '(num, den) := magnitude m e in
      exists k, 0 <= k /\ Z.abs (2 * (100 * num - k * den)) <= den /\
                denotes_hundredths s k out
  | S754_infinity _ | S754_nan => False
  end.

(** The rule for NUMBER values in the words of the specification. *)
Definition number_rule (v : pyval) (out : string) : Prop :=
  match v with
  | VNone => out = ""
  | _ =>
      match py_float v with
      | Ok f =>
          (exists z, is_whole f z /\ out = str_int z) \/
          (is_integer f = false /\ is_two_decimals f out)
      | Raise _ => py_str v = Ok out
      end
  end.

(** What is stored for a value other than [None] under type NUMBER. *)
Definition number_outcome (v : pyval) (out : string) : Prop :=
  match py_float v with
  | Raise _ => py_str v = Ok out
  | Ok (S754_infinity s) => out = if s then "-inf" else "inf"
  | Ok S754_nan => out = "nan"
  | Ok f =>
      if is_integer f
      then exists z, is_whole f z /\ out = str_int z /\ int_of_str out = Some z
      else is_two_decimals f out
  end.

(** The values whose [str] returns: every value but an int of more digits
    than the limit. *)
Definition printable (v : pyval) : bool :=
  match v with
  | VInt z => ndigits (Z.abs z) <=? int_max_str_digits
  | _ => true
  end.

Definition widgets_printable (t n r m : pyval) : bool :=
  printable t && printable n && printable r && printable m.

Definition call_printable (c : call) : bool :=
  match c with
  | advance t n r m | retreat t n r m => widgets_printable t n r m
  end.

(** An int of 4301 digits. *)
Definition huge_int : Z := 10 ^ 4300.

(** Is the component shown by this update? *)
Definition visible (u : gr_update) : bool :=
  match u with
  | UpdHidden => false
  | UpdFile _ v => v
  | _ => true
  end.

(** The parts of what a transition returns. *)
Definition result_widgets (r : handler_result)
  : gr_update * gr_update * gr_update * gr_update :=
  let '(_, text_u, num_u, radio_u, multi_u, _, _, _) := r in
  (text_u, num_u, radio_u, multi_u).

Definition result_progress (r : handler_result) : string :=
  let '(_, _, _, _, _, prog, _, _) := r in prog.

Definition result_back (r : handler_result) : gr_update :=
  let '(_, _, _, _, _, _, back_u, _) := r in back_u.

Definition result_next (r : handler_result) : gr_update :=
  let '(_, _, _, _, _, _, _, next_u) := r in next_u.

(** The step after one button press, counted on the buttons alone. *)
Definition press (s : Z) (c : call) : Z :=
  match c with
  | advance _ _ _ _ => Z.min (s + 1) (len QUESTIONS - 1)
  | retreat _ _ _ _ => Z.max (s - 1) 0
  end.

(** The [delta] that the handler of a call passes on. *)
Definition call_delta (st : State) (c : call) : Z :=
  match c with
  | advance _ _ _ _ => if step st =? len QUESTIONS - 1 then 0 else 1
  | retreat _ _ _ _ => -1
  end.

Definition is_advance (c : call) : bool :=
  match c with
  | advance _ _ _ _ => true
  | retreat _ _ _ _ => false
  end.

(** The widget that shows a stored answer [v] of a question of type text
    or multiline. *)
Definition text_widget (q : Question) (v : string) : gr_update :=
  UpdText (label q) v (placeholder q).

(** The keys of the fields that the overlay can write. *)
Definition field_keys : list string := fst <$> PDF_FIELD_POSITIONS.

(** An item of a page is a text of the overlay showing [v] at [(x, y)]. *)
Definition answer_text (x y : Z) (v : string) : item := Text "Helvetica" 10 x y v.

(** * Properties *)

(** ** Indexing and the question list *)

Lemma len_QUESTIONS : len QUESTIONS = 17.
Proof. reflexivity. Qed.

Lemma clamp_range i : 0 <= clamp i <= len QUESTIONS - 1.
Proof. unfold clamp. rewrite len_QUESTIONS. lia. Qed.

Lemma py_index_in_range {A} (l : list A) i :
  0 <= i < len l -> exists x, py_index l i = Ok x /\ l !! Z.to_nat i = Some x.
Proof.
  intros Hi. unfold py_index.
  assert ((i <? 0) = false) as -> by lia.
  assert (((i <? 0) || (len l <=? i)) = false) as -> by (apply orb_false_iff; lia).
  destruct (l !! Z.to_nat i) as [x|] eqn:E; [eauto|].
  apply lookup_ge_None in E. unfold len in Hi. lia.
Qed.

Lemma current_question_ok i :
  exists q, current_question i = Ok q /\ QUESTIONS !! Z.to_nat (clamp i) = Some q.
Proof.
  unfold current_question. fold (clamp i).
  apply py_index_in_range. pose proof (clamp_range i). lia.
Qed.

Lemma index_of_ok q : q ∈ QUESTIONS -> returns (index_of q QUESTIONS).
Proof.
  intros Hq. unfold index_of.
  destruct (list_find_elem_of (fun q' => q' = q) QUESTIONS q Hq eq_refl) as [[i x] ->].
  eexists; reflexivity.
Qed.

Lemma ui_for_question_ok q value : q ∈ QUESTIONS -> returns (ui_for_question q value).
Proof.
  intros Hq. unfold ui_for_question.
  destruct (index_of_ok q Hq) as [i ->]. cbn.
  destruct (if String.eqb (qtype q) "text" then _ else _) as [[[a b] c] d].
  eexists; reflexivity.
Qed.

(** ** When normalisation returns *)

Lemma int_of_float_ok n : is_integer n = true -> returns (int_of_float n).
Proof. destruct n; cbn; try discriminate; intros _; eexists; reflexivity. Qed.

Lemma py_str_printable v : printable v = true -> returns (py_str v).
Proof.
  destruct v; cbn [py_str printable]; try (intros _; eexists; reflexivity).
  intros H. apply Z.leb_le in H. unfold py_str_int.
  rewrite (proj2 (Z.ltb_ge _ _) H). eexists; reflexivity.
Qed.

Lemma py_str_raise v e :
  py_str v = Raise e ->
  exn_class e = ValueError /\
  exists z, v = VInt z /\ int_max_str_digits < ndigits (Z.abs z).
Proof.
  destruct v; cbn [py_str]; try discriminate.
  unfold py_str_int.
  destruct (Z.ltb_spec int_max_str_digits (ndigits (Z.abs z))); [|discriminate].
  intros [= <-]. split; [reflexivity|]. eauto.
Qed.

Lemma number_branch_cases v :
  match py_float v with
  | Ok f =>
      returns (try_except
        (n ← py_float v;
         if is_integer n then z ← int_of_float n; Ok (str_int z)
         else Ok (format_2f n))
        (fun _ => py_str v))
  | Raise _ =>
      try_except
        (n ← py_float v;
         if is_integer n then z ← int_of_float n; Ok (str_int z)
         else Ok (format_2f n))
        (fun _ => py_str v) = py_str v
  end.
Proof.
  destruct (py_float v) as [n|e]; cbn; [|reflexivity].
  destruct (is_integer n) eqn:Hn; [|eexists; reflexivity].
  destruct (int_of_float_ok n Hn) as [z ->]. eexists; reflexivity.
Qed.

Lemma normalize_value_not_None v t :
  v <> VNone ->
  normalize_value v t =
    if String.eqb t "number" then
      try_except
        (n ← py_float v;
         if is_integer n then z ← int_of_float n; Ok (str_int z)
         else Ok (format_2f n))
        (fun _ => py_str v)
    else py_str v.
Proof. destruct v; [congruence | reflexivity ..]. Qed.

Lemma pyval_None_dec (v : pyval) : v = VNone \/ v <> VNone.
Proof. destruct v; [by left | by right ..]. Qed.

Lemma normalize_value_returns v t : printable v = true -> returns (normalize_value v t).
Proof.
  intros Hp. destruct (pyval_None_dec v) as [->|Hv]; [eexists; reflexivity|].
  rewrite (normalize_value_not_None v t Hv).
  destruct (String.eqb t "number"); [|by apply py_str_printable].
  pose proof (number_branch_cases v) as Hc.
  destruct (py_float v); [exact Hc|]. rewrite Hc. by apply py_str_printable.
Qed.

Lemma normalize_value_raise v t e :
  normalize_value v t = Raise e ->
  exn_class e = ValueError /\
  exists z, v = VInt z /\ int_max_str_digits < ndigits (Z.abs z).
Proof.
  destruct (pyval_None_dec v) as [->|Hv]; [discriminate|].
  rewrite (normalize_value_not_None v t Hv).
  destruct (String.eqb t "number"); [|apply py_str_raise].
  pose proof (number_branch_cases v) as Hc.
  destruct (py_float v).
  - destruct Hc as [out ->]. discriminate.
  - rewrite Hc. apply py_str_raise.
Qed.

Lemma raw_value_printable q t n r m :
  widgets_printable t n r m = true -> printable (raw_value q t n r m) = true.
Proof.
  unfold widgets_printable, raw_value. rewrite !andb_true_iff.
  intros [[[? ?] ?] ?]. repeat case_match; done.
Qed.

(** ** One transition *)

Lemma save_answer_and_move_cases st t n r m delta :
  exists q,
    QUESTIONS !! Z.to_nat (clamp (step st)) = Some q /\
    match normalize_value (raw_value q t n r m) (qtype q) with
    | Raise e => save_answer_and_move st t n r m delta = Raise e
    | Ok v =>
        exists q2 tu nu ru mu prog,
          QUESTIONS !! Z.to_nat (clamp (step st + delta)) = Some q2 /\
          ui_for_question q2 (default "" (<[key q := v]> (answers st) !! key q2))
            = Ok (tu, nu, ru, mu, prog) /\
          save_answer_and_move st t n r m delta =
            Ok ({| step := clamp (step st + delta);
                   answers := <[key q := v]> (answers st) |},
                tu, nu, ru, mu, prog,
                UpdInteractive (0 <? clamp (step st + delta)),
                UpdValue (if clamp (step st + delta) =? len QUESTIONS - 1
                          then "Finish & Generate PDF" else "Next"))
    end.
Proof.
  destruct (current_question_ok (step st)) as (q & Hq & Hlq).
  exists q. split; [exact Hlq|].
  unfold save_answer_and_move. rewrite Hq. cbn. fold (raw_value q t n r m).
  destruct (normalize_value (raw_value q t n r m) (qtype q)) as [v|e]; cbn;
    [|reflexivity].
  destruct (current_question_ok (step st + delta)) as (q2 & Hq2 & Hlq2).
  assert (q2 ∈ QUESTIONS) as Hin by (eapply list_elem_of_lookup_2; eauto).
  destruct (ui_for_question_ok q2
              (default "" (<[key q := v]> (answers st) !! key q2)) Hin)
    as [[[[[a b] c] d] e] Hui].
  exists q2, a, b, c, d, e. split; [exact Hlq2|]. split; [exact Hui|].
  fold (clamp (step st + delta)).
  unfold current_question in Hq2. fold (clamp (step st + delta)) in Hq2.
  unfold current_question. fold (clamp (clamp (step st + delta))).
  assert (clamp (clamp (step st + delta)) = clamp (step st + delta)) as ->.
  { unfold clamp. lia. }
  rewrite Hq2. cbn. rewrite Hui. reflexivity.
Qed.

Lemma save_answer_and_move_spec st t n r m delta hr :
  save_answer_and_move st t n r m delta = Ok hr ->
  exists q v,
    QUESTIONS !! Z.to_nat (clamp (step st)) = Some q /\
    normalize_value (raw_value q t n r m) (qtype q) = Ok v /\
    result_state hr =
      {| step := clamp (step st + delta); answers := <[key q := v]> (answers st) |}.
Proof.
  intros Hs. destruct (save_answer_and_move_cases st t n r m delta) as (q & Hq & Hc).
  destruct (normalize_value (raw_value q t n r m) (qtype q)) as [v|e] eqn:Hv;
    [|rewrite Hc in Hs; discriminate].
  destruct Hc as (q2 & tu & nu & ru & mu & prog & _ & _ & Hc).
  rewrite Hc in Hs. injection Hs as <-. exists q, v.
  split; [exact Hq|]. split; [exact Hv|reflexivity].
Qed.

Lemma save_answer_and_move_returns st t n r m delta :
  widgets_printable t n r m = true ->
  returns (save_answer_and_move st t n r m delta).
Proof.
  intros Hp. destruct (save_answer_and_move_cases st t n r m delta) as (q & Hq & Hc).
  destruct (normalize_value_returns _ (qtype q) (raw_value_printable q t n r m Hp))
    as [v Hv].
  rewrite Hv in Hc. destruct Hc as (q2 & tu & nu & ru & mu & prog & _ & _ & ->).
  eexists; reflexivity.
Qed.

(** At a step whose question is known, what is stored is the normalised
    value of the widget of that question. *)
Lemma save_answer_and_move_at st t n r m delta (i : nat) q :
  step st = Z.of_nat i -> QUESTIONS !! i = Some q ->
  match normalize_value (raw_value q t n r m) (qtype q) with
  | Raise e => save_answer_and_move st t n r m delta = Raise e
  | Ok v =>
      exists hr,
        save_answer_and_move st t n r m delta = Ok hr /\
        result_state hr =
          {| step := clamp (step st + delta); answers := <[key q := v]> (answers st) |}
  end.
Proof.
  intros Hstep Hq.
  assert (clamp (Z.of_nat i) = Z.of_nat i) as Hc0.
  { apply lookup_lt_Some in Hq. unfold clamp, len. lia. }
  destruct (save_answer_and_move_cases st t n r m delta) as (q' & Hq' & Hc).
  rewrite Hstep, Hc0, Nat2Z.id, Hq in Hq'. injection Hq' as <-.
  destruct (normalize_value (raw_value q t n r m) (qtype q)) as [v|e]; [|exact Hc].
  destruct Hc as (q2 & tu & nu & ru & mu & prog & _ & _ & ->).
  eexists. split; reflexivity.
Qed.

Lemma on_next_or_finish_cases w st t n r m :
  match save_answer_and_move st t n r m
          (if step st =? len QUESTIONS - 1 then 0 else 1) with
  | Ok hr =>
      on_next_or_finish w st t n r m =
        Ok (hr,
            (finish_report w (step st =? len QUESTIONS - 1) (answers (result_state hr))).1,
            (finish_report w (step st =? len QUESTIONS - 1) (answers (result_state hr))).2)
  | Raise e => on_next_or_finish w st t n r m = Raise e
  end.
Proof.
  unfold on_next_or_finish.
  destruct (save_answer_and_move st t n r m _) as [hr|e]; cbn; [|reflexivity].
  destruct hr as [[[[[[[st' a] b] c] d] e] f] g]. cbn. unfold finish_report.
  destruct (step st =? len QUESTIONS - 1); [|reflexivity].
  destruct (fill_pdf w _); reflexivity.
Qed.

Lemma on_next_or_finish_spec w st t n r m hr d s :
  on_next_or_finish w st t n r m = Ok (hr, d, s) ->
  save_answer_and_move st t n r m (if step st =? len QUESTIONS - 1 then 0 else 1)
    = Ok hr /\
  (d, s) = finish_report w (step st =? len QUESTIONS - 1) (answers (result_state hr)).
Proof.
  intros H. pose proof (on_next_or_finish_cases w st t n r m) as Hc.
  destruct (save_answer_and_move st t n r m _) as [hr'|e];
    rewrite Hc in H; [|discriminate].
  injection H as <- <- <-. split; [reflexivity|].
  by destruct (finish_report w _ _).
Qed.

Lemma on_next_or_finish_returns w st t n r m :
  widgets_printable t n r m = true -> returns (on_next_or_finish w st t n r m).
Proof.
  intros Hp. pose proof (on_next_or_finish_cases w st t n r m) as Hc.
  destruct (save_answer_and_move_returns st t n r m
              (if step st =? len QUESTIONS - 1 then 0 else 1) Hp) as [hr Hs].
  rewrite Hs in Hc. rewrite Hc. eexists; reflexivity.
Qed.

Lemma on_next_or_finish_raise w st t n r m e :
  on_next_or_finish w st t n r m = Raise e ->
  save_answer_and_move st t n r m (if step st =? len QUESTIONS - 1 then 0 else 1)
    = Raise e.
Proof.
  intros H. pose proof (on_next_or_finish_cases w st t n r m) as Hc.
  destruct (save_answer_and_move st t n r m _) as [hr'|e'];
    rewrite Hc in H; [discriminate|]. by injection H as ->.
Qed.

Lemma apply_call_spec w st c st' :
  apply_call w st c = Ok st' ->
  exists q v,
    QUESTIONS !! Z.to_nat (clamp (step st)) = Some q /\
    st' = {| step := clamp (step st + call_delta st c);
             answers := <[key q := v]> (answers st) |}.
Proof.
  destruct c as [t n r m|t n r m]; cbn [apply_call call_delta].
  - destruct (on_next_or_finish w st t n r m) as [[[hr d] s]|e] eqn:Hn; cbn;
      [|discriminate].
    intros [= <-]. apply on_next_or_finish_spec in Hn as [Hs _].
    destruct (save_answer_and_move_spec _ _ _ _ _ _ _ Hs) as (q & v & Hq & _ & Hr).
    exists q, v. done.
  - unfold on_back.
    destruct (save_answer_and_move st t n r m (-1)) as [hr|e] eqn:Hs; cbn;
      [|discriminate].
    intros [= <-].
    destruct (save_answer_and_move_spec _ _ _ _ _ _ _ Hs) as (q & v & Hq & _ & Hr).
    exists q, v. done.
Qed.

Lemma apply_call_returns w st c :
  call_printable c = true -> returns (apply_call w st c).
Proof.
  destruct c as [t n r m|t n r m]; cbn [apply_call call_printable]; intros Hp.
  - destruct (on_next_or_finish_returns w st t n r m Hp) as [[[hr d] s] ->].
    eexists; reflexivity.
  - unfold on_back.
    destruct (save_answer_and_move_returns st t n r m (-1) Hp) as [hr ->].
    eexists; reflexivity.
Qed.

Lemma apply_calls_returns w cs : forall st,
  forallb call_printable cs = true -> returns (apply_calls w st cs).
Proof.
  induction cs as [|c cs IH]; intros st Hp; cbn [apply_calls]; [by eexists|].
  cbn in Hp. apply andb_true_iff in Hp as [Hc Hp].
  destruct (apply_call_returns w st c Hc) as [st1 ->]. cbn. by apply IH.
Qed.

Lemma start_interview_spec st :
  exists hr s, start_interview st = Ok (hr, s) /\ result_state hr = default_state.
Proof. vm_compute. eexists _, _. split; reflexivity. Qed.

Lemma run_apply_calls w cs : run w cs = apply_calls w default_state cs.
Proof.
  unfold run. destruct (start_interview_spec default_state) as (hr & s & -> & Hr).
  cbn. by rewrite Hr.
Qed.

Lemma run_returns w cs : forallb call_printable cs = true -> returns (run w cs).
Proof. rewrite run_apply_calls. apply apply_calls_returns. Qed.

(** ** The session invariant *)

Lemma dom_default_answers (l : list Question) (m : gmap string string) :
  dom (foldl (fun m q => <[key q := ""]> m) m l) = list_to_set (key <$> l) ∪ dom m.
Proof.
  revert m. induction l as [|q l IH]; intros m; cbn.
  - by rewrite (left_id_L ∅ (∪)).
  - rewrite IH, dom_insert_L, (assoc_L (∪)), (comm_L (∪) _ {[key q]}). reflexivity.
Qed.

Lemma session_inv_default : session_inv default_state.
Proof.
  split; [rewrite len_QUESTIONS; cbn; lia|]. unfold default_state, schema_keys. cbn [answers].
  rewrite dom_default_answers, dom_empty_L. apply (right_id_L ∅ (∪)).
Qed.

Lemma question_key_in_schema q i : QUESTIONS !! i = Some q -> key q ∈ schema_keys.
Proof.
  intros H. unfold schema_keys. apply elem_of_list_to_set, list_elem_of_fmap.
  exists q. split; [reflexivity|]. eapply list_elem_of_lookup_2; eauto.
Qed.

Lemma session_inv_apply_call w st c st' :
  session_inv st -> apply_call w st c = Ok st' -> session_inv st'.
Proof.
  intros [_ Hdom] Hc.
  destruct (apply_call_spec w st c st' Hc) as (q & v & Hq & ->).
  split; cbn [step answers].
  - apply clamp_range.
  - rewrite dom_insert_L, Hdom.
    apply subseteq_union_1_L, singleton_subseteq_l.
    exact (question_key_in_schema q _ Hq).
Qed.

Lemma session_inv_apply_calls w cs : forall st st',
  session_inv st -> apply_calls w st cs = Ok st' -> session_inv st'.
Proof.
  induction cs as [|c cs IH]; intros st st' Hst; cbn [apply_calls].
  - by intros [= <-].
  - destruct (apply_call w st c) as [st1|e] eqn:Hc; cbn; [|discriminate].
    apply IH. by eapply session_inv_apply_call.
Qed.

Lemma session_inv_run w cs st : run w cs = Ok st -> session_inv st.
Proof.
  rewrite run_apply_calls. apply session_inv_apply_calls, session_inv_default.
Qed.

(** ** The interview state machine *)

(** C1: in every session, that is [start] followed by any finite sequence
    of forward and backward transitions, the step stays within [0, N-1],
    where N is the number of questions: whenever the calls of the session
    return, the step they reach is in that range, and they do return when
    no widget delivers an int of more digits than [str] converts (a call
    that raises stores nothing and moves nothing).  Moreover, from any
    state whatever, a backward transition that returns never leaves the
    step below 0 and a forward transition that returns never leaves it
    above N-1. *)
Theorem step_stays_in_range (w : World) (cs : list call) (st0 : State)
    (t n r m : pyval) :
  (forall st, run w cs = Ok st -> 0 <= step st <= len QUESTIONS - 1) /\
  (forallb call_printable cs = true ->
     exists st, run w cs = Ok st /\ 0 <= step st <= len QUESTIONS - 1) /\
  (forall hr, on_back st0 t n r m = Ok hr -> 0 <= step (result_state hr)) /\
  (forall hr d s, on_next_or_finish w st0 t n r m = Ok (hr, d, s) ->
     step (result_state hr) <= len QUESTIONS - 1) /\
  (widgets_printable t n r m = true ->
     returns (on_back st0 t n r m) /\ returns (on_next_or_finish w st0 t n r m)).
Proof.
  split; [|split; [|split; [|split]]].
  - intros st Hrun. by destruct (session_inv_run w cs st Hrun).
  - intros Hp. destruct (run_returns w cs Hp) as [st Hrun].
    exists st. split; [exact Hrun|]. by destruct (session_inv_run w cs st Hrun).
  - intros hr Hb.
    destruct (save_answer_and_move_spec _ _ _ _ _ _ _ Hb) as (q & v & _ & _ & ->).
    cbn. apply clamp_range.
  - intros hr d s Hn. apply on_next_or_finish_spec in Hn as [Hs _].
    destruct (save_answer_and_move_spec _ _ _ _ _ _ _ Hs) as (q & v & _ & _ & ->).
    cbn. apply clamp_range.
  - intros Hp. split;
      [apply save_answer_and_move_returns | apply on_next_or_finish_returns]; exact Hp.
Qed.

(** C4: in every session, that is [start] followed by any finite sequence
    of forward and backward transitions, the key set of the answers equals
    the key set of the question list: no key is added or removed.  This
    holds of the state reached whenever the calls of the session return, and
    they return when no widget delivers an int of more digits than [str]
    converts (a call that raises stores nothing). *)
Theorem answer_keys_are_schema_keys (w : World) (cs : list call) :
  (forall st, run w cs = Ok st -> dom (answers st) = schema_keys) /\
  (forallb call_printable cs = true ->
     exists st, run w cs = Ok st /\ dom (answers st) = schema_keys).
Proof.
  split.
  - intros st Hrun. by destruct (session_inv_run w cs st Hrun).
  - intros Hp. destruct (run_returns w cs Hp) as [st Hrun].
    exists st. split; [exact Hrun|]. by destruct (session_inv_run w cs st Hrun).
Qed.

(** C10: one forward or backward transition, from any state, changes the
    answer of at most one key, the key of the question at the step current
    when the call began: in the state it returns every other key keeps its
    value.  The call returns when no widget delivers an int of more digits
    than [str] converts; a call that raises returns no state. *)
Theorem transition_changes_one_answer (w : World) (st : State) (c : call) :
  exists q,
    current_question (step st) = Ok q /\
    (forall st', apply_call w st c = Ok st' ->
       forall k, k <> key q -> answers st' !! k = answers st !! k) /\
    (call_printable c = true -> exists st', apply_call w st c = Ok st').
Proof.
  destruct (current_question_ok (step st)) as (q & Hq & Hl).
  exists q. split; [exact Hq|]. split.
  - intros st' Hc k Hk.
    destruct (apply_call_spec w st c st' Hc) as (q' & v & Hq' & ->).
    assert (q' = q) as -> by congruence.
    cbn. by rewrite lookup_insert_ne.
  - apply apply_call_returns.
Qed.

(** C9: a backward transition taken at step 0 stores the normalised value
    of the text widget (question 0 is of type text) under the key of
    question 0 and leaves the step at 0, whenever it returns; it returns
    for every value of the text widget but an int of more digits than [str]
    converts; and a string is stored unchanged. *)
Theorem retreat_at_first_step (st : State) (t n r m : pyval) :
  step st = 0 ->
  exists q0,
    current_question 0 = Ok q0 /\
    raw_value q0 t n r m = t /\
    (forall hr, on_back st t n r m = Ok hr ->
       step (result_state hr) = 0 /\
       exists v, normalize_value t (qtype q0) = Ok v /\
                 answers (result_state hr) !! key q0 = Some v) /\
    (printable t = true -> exists hr, on_back st t n r m = Ok hr) /\
    (forall s, t = VStr s -> normalize_value t (qtype q0) = Ok s).
Proof.
  intros Hstep.
  pose proof (fun delta => save_answer_and_move_at st t n r m delta 0
    (mkQuestion "full_name" "Your full legal name" "text" None "Jane Doe")
    Hstep eq_refl) as Hat.
  change (raw_value _ t n r m) with t in Hat.
  eexists. split; [reflexivity|]. split; [reflexivity|]. split; [|split].
  - intros hr Hb. specialize (Hat (-1)). unfold on_back in Hb.
    destruct (normalize_value t _) as [v|e] eqn:Hv; [|rewrite Hat in Hb; discriminate].
    destruct Hat as (hr' & Hs & Hr). rewrite Hs in Hb. injection Hb as <-.
    rewrite Hr, Hstep. cbn [step answers]. split; [reflexivity|].
    exists v. split; [reflexivity|]. apply lookup_insert_eq.
  - intros Hp. specialize (Hat (-1)). unfold on_back.
    destruct (normalize_value_returns t "text" Hp) as [v Hv].
    change (qtype _) with "text" in Hat. rewrite Hv in Hat.
    destruct Hat as (hr & Hs & _). eauto.
  - intros s ->. reflexivity.
Qed.

Lemma retreat_at_first_step_witness :
  exists q0,
    current_question 0 = Ok q0 /\
    raw_value q0 (VStr "Jane Doe") VNone VNone VNone = VStr "Jane Doe" /\
    (forall hr, on_back default_state (VStr "Jane Doe") VNone VNone VNone = Ok hr ->
       step (result_state hr) = 0 /\
       exists v, normalize_value (VStr "Jane Doe") (qtype q0) = Ok v /\
                 answers (result_state hr) !! key q0 = Some v) /\
    (printable (VStr "Jane Doe") = true ->
       exists hr, on_back default_state (VStr "Jane Doe") VNone VNone VNone = Ok hr) /\
    (forall s, VStr "Jane Doe" = VStr s ->
       normalize_value (VStr "Jane Doe") (qtype q0) = Ok s).
Proof.
  apply (retreat_at_first_step default_state (VStr "Jane Doe") VNone VNone VNone).
  reflexivity.
Defined.

(** C7: a forward transition taken at step N-1 that returns has stored the
    normalised value of the text widget (the last question is of type
    text) under the last question's key, has left the step at N-1, and has
    handed to [fill_pdf] the answers that already hold that value.  It
    returns for every value of the text widget but an int of more digits
    than [str] converts, in which case nothing is stored or rendered; and a
    string is stored unchanged. *)
Theorem finish_saves_before_render (w : World) (st : State) (t n r m : pyval) :
  step st = len QUESTIONS - 1 ->
  exists q,
    current_question (len QUESTIONS - 1) = Ok q /\
    raw_value q t n r m = t /\
    (forall hr d s, on_next_or_finish w st t n r m = Ok (hr, d, s) ->
       exists v,
         normalize_value t (qtype q) = Ok v /\
         step (result_state hr) = len QUESTIONS - 1 /\
         answers (result_state hr) = <[key q := v]> (answers st) /\
         <[key q := v]> (answers st) !! key q = Some v /\
         (d, s) =
           match fill_pdf w (<[key q := v]> (answers st)) with
           | Ok output => (UpdFile (Some output) true,
               "PDF generated successfully. Review and sign where required before filing.")
           | Raise e => (UpdFile None false, "Could not generate PDF: " +:+ exn_msg e)
           end) /\
    (printable t = true -> exists hr d s, on_next_or_finish w st t n r m = Ok (hr, d, s)) /\
    (forall s0, t = VStr s0 -> normalize_value t (qtype q) = Ok s0).
Proof.
  intros Hstep.
  pose proof (fun delta => save_answer_and_move_at st t n r m delta 16
    (mkQuestion "signature_name" "Type your name as signature" "text" None "Jane Doe")
    Hstep eq_refl) as Hat.
  change (raw_value _ t n r m) with t in Hat.
  assert ((step st =? len QUESTIONS - 1) = true) as Hlast by (rewrite Hstep; reflexivity).
  eexists. split; [reflexivity|]. split; [reflexivity|]. split; [|split].
  - intros hr d s Hn. apply on_next_or_finish_spec in Hn as [Hs Hds].
    rewrite Hlast in Hs, Hds. specialize (Hat 0).
    destruct (normalize_value t _) as [v|e] eqn:Hv; [|rewrite Hat in Hs; discriminate].
    destruct Hat as (hr' & Hs' & Hr). rewrite Hs' in Hs. injection Hs as <-.
    rewrite Hr in Hds |- *. cbn [step answers] in Hds |- *. exists v.
    split; [reflexivity|]. split; [rewrite Hstep; reflexivity|]. split; [reflexivity|].
    split; [apply lookup_insert_eq|]. rewrite Hds. unfold finish_report.
    destruct (fill_pdf w _); reflexivity.
  - intros Hp. pose proof (on_next_or_finish_cases w st t n r m) as Hc.
    rewrite Hlast in Hc. specialize (Hat 0).
    destruct (normalize_value_returns t "text" Hp) as [v Hv].
    change (qtype _) with "text" in Hat. rewrite Hv in Hat.
    destruct Hat as (hr & Hs & _). rewrite Hs in Hc. eauto.
  - intros s0 ->. reflexivity.
Qed.

Lemma finish_saves_before_render_witness :
  exists q,
    current_question (len QUESTIONS - 1) = Ok q /\
    raw_value q (VStr "Jane Doe") VNone VNone VNone = VStr "Jane Doe" /\
    (forall hr d s,
       on_next_or_finish (mkWorld Missing (fun _ => None))
         (mkState 16 (answers default_state)) (VStr "Jane Doe") VNone VNone VNone
         = Ok (hr, d, s) ->
       exists v,
         normalize_value (VStr "Jane Doe") (qtype q) = Ok v /\
         step (result_state hr) = len QUESTIONS - 1 /\
         answers (result_state hr) = <[key q := v]> (answers default_state) /\
         <[key q := v]> (answers default_state) !! key q = Some v /\
         (d, s) =
           match fill_pdf (mkWorld Missing (fun _ => None))
                   (<[key q := v]> (answers default_state)) with
           | Ok output => (UpdFile (Some output) true,
               "PDF generated successfully. Review and sign where required before filing.")
           | Raise e => (UpdFile None false, "Could not generate PDF: " +:+ exn_msg e)
           end) /\
    (printable (VStr "Jane Doe") = true ->
       exists hr d s,
         on_next_or_finish (mkWorld Missing (fun _ => None))
           (mkState 16 (answers default_state)) (VStr "Jane Doe") VNone VNone VNone
           = Ok (hr, d, s)) /\
    (forall s0, VStr "Jane Doe" = VStr s0 ->
       normalize_value (VStr "Jane Doe") (qtype q) = Ok s0).
Proof.
  apply (finish_saves_before_render (mkWorld Missing (fun _ => None))
           (mkState 16 (answers default_state)) (VStr "Jane Doe") VNone VNone VNone).
  reflexivity.
Defined.

(** ** The overlay *)

#[local] Arguments PDF_FIELD_POSITIONS : simpl never.
#[local] Arguments QUESTIONS : simpl never.

Lemma draws_ok_cons w a f fields :
  draws_ok w a (f :: fields) -> draws_ok w a fields.
Proof. intros H k p x y Hin. apply (H k p x y). by right. Qed.

Lemma draw_fields_ok w a i fields : forall c,
  draws_ok w a fields ->
  exists c', draw_fields w a i fields c = Ok c' /\
             shown c' = shown c /\
             current c' = current c ++ page_texts a fields i.
Proof.
  induction fields as [|[k [[p x] y]] fields IH]; intros c Hok; cbn.
  - exists c. by rewrite app_nil_r.
  - pose proof (draws_ok_cons _ _ _ _ Hok) as Hok'.
    destruct (p =? i) eqn:Hp; cbn.
    + destruct (String.eqb (default "" (a !! k)) "") eqn:Hv; cbn.
      * apply IH, Hok'.
      * unfold drawString. rewrite (Hok k p x y).
        -- cbn. edestruct IH as (c' & -> & Hs & Hc); [exact Hok'|].
           exists c'. split; [reflexivity|]. split; [exact Hs|].
           rewrite Hc. cbn. by rewrite <- app_assoc.
        -- by left.
        -- intros E. rewrite E in Hv. discriminate.
    + apply IH, Hok'.
Qed.

Lemma draw_pages_ok w a idxs : forall c,
  draws_ok w a PDF_FIELD_POSITIONS -> current c = [] ->
  exists c', draw_pages w a idxs c = Ok c' /\
             shown c' = shown c ++ map (page_texts a PDF_FIELD_POSITIONS) idxs /\
             current c' = [].
Proof.
  induction idxs as [|i idxs IH]; intros c Hok Hcur; cbn.
  - exists c. by rewrite app_nil_r.
  - destruct (draw_fields_ok w a i PDF_FIELD_POSITIONS c Hok) as (c1 & -> & Hs & Hc).
    cbn. destruct (IH (showPage c1) Hok eq_refl) as (c' & -> & Hs' & Hc').
    exists c'. split; [reflexivity|]. split; [|exact Hc'].
    rewrite Hs'. cbn. rewrite Hs, Hc, Hcur. cbn. by rewrite <- app_assoc.
Qed.

Lemma create_overlay_pdf_ok w a n :
  draws_ok w a PDF_FIELD_POSITIONS ->
  create_overlay_pdf w a n = Ok (map (page_texts a PDF_FIELD_POSITIONS) (range n)).
Proof.
  intros Hok. unfold create_overlay_pdf.
  destruct (draw_pages_ok w a (range n) new_canvas Hok eq_refl) as (c & -> & Hs & Hc).
  cbn. unfold save. rewrite Hc, Hs. reflexivity.
Qed.

(** Drawing can fail with a canvas error only. *)
Lemma draw_fields_raise w a i fields : forall c e,
  draw_fields w a i fields c = Raise e -> exn_class e = CanvasError.
Proof.
  induction fields as [|[k [[p x] y]] fields IH]; intros c e; cbn; [discriminate|].
  destruct (negb (p =? i)); [apply IH|].
  destruct (negb _); [|apply IH].
  unfold drawString. destruct (draw_failure w _); cbn.
  - intros [= <-]. reflexivity.
  - apply IH.
Qed.

Lemma draw_pages_raise w a idxs : forall c e,
  draw_pages w a idxs c = Raise e -> exn_class e = CanvasError.
Proof.
  induction idxs as [|i idxs IH]; intros c e; cbn; [discriminate|].
  destruct (draw_fields w a i PDF_FIELD_POSITIONS c) as [c1|e1] eqn:E; cbn.
  - apply IH.
  - intros [= <-]. eapply draw_fields_raise, E.
Qed.

Lemma create_overlay_pdf_raise w a n e :
  create_overlay_pdf w a n = Raise e -> exn_class e = CanvasError.
Proof.
  unfold create_overlay_pdf.
  destruct (draw_pages w a (range n) new_canvas) as [c|e1] eqn:E; cbn; [discriminate|].
  intros [= <-]. eapply draw_pages_raise, E.
Qed.

(** ** The merge *)

Lemma merge_pages_spec tpl overlay idxs : forall writer,
  (forall i, i ∈ idxs -> 0 <= i < len tpl) ->
  merge_pages tpl overlay idxs writer = Ok (writer ++ map (merged tpl overlay) idxs).
Proof.
  induction idxs as [|i idxs IH]; intros writer Hin; cbn.
  - by rewrite app_nil_r.
  - assert (0 <= i < len tpl) as Hi by (apply Hin; by left).
    destruct (py_index_in_range tpl i Hi) as (base & -> & Hb). cbn.
    assert (merged tpl overlay i =
            if i <? len overlay then
              match overlay !! Z.to_nat i with Some o => merge_page base o | None => base end
            else base) as Hm.
    { unfold merged, page in *. rewrite Hb. cbn.
      destruct (i <? len overlay) eqn:Hlt; [reflexivity|].
      rewrite (proj2 (lookup_ge_None overlay (Z.to_nat i))); [reflexivity|].
      unfold len in Hlt. lia. }
    destruct (i <? len overlay) eqn:Hlt.
    + destruct (py_index_in_range overlay i) as (o & -> & Ho); [lia|]. cbn.
      rewrite Ho in Hm. rewrite IH by (intros j Hj; apply Hin; by right).
      rewrite <- app_assoc. cbn. by rewrite Hm.
    + cbn. rewrite IH by (intros j Hj; apply Hin; by right).
      rewrite <- app_assoc. cbn. by rewrite Hm.
Qed.

Lemma range_bounds n i : i ∈ range n -> 0 <= i < n.
Proof. unfold range. rewrite elem_of_seqZ. lia. Qed.

Lemma length_range_len {A} (l : list A) : length (range (len l)) = length l.
Proof. unfold range, len. rewrite length_seqZ. lia. Qed.

Lemma lookup_range_len {A} (l : list A) (i : nat) :
  (i < length l)%nat -> range (len l) !! i = Some (Z.of_nat i).
Proof.
  intros Hi. unfold range, len. rewrite lookup_seqZ. split; lia.
Qed.

Lemma merge_template tpl overlay :
  merge_pages tpl overlay (range (len tpl)) [] =
    Ok (map (merged tpl overlay) (range (len tpl))).
Proof. apply (merge_pages_spec tpl overlay _ []), range_bounds. Qed.

Lemma lookup_merged tpl overlay (i : nat) :
  (i < length tpl)%nat ->
  map (merged tpl overlay) (range (len tpl)) !! i = Some (merged tpl overlay (Z.of_nat i)).
Proof.
  intros Hi. rewrite list_lookup_fmap, (lookup_range_len tpl i Hi). reflexivity.
Qed.

Lemma fill_pdf_readable w a tpl :
  template w = Readable tpl ->
  fill_pdf w a =
    overlay ← create_overlay_pdf w a (len tpl);
    Ok (map (merged tpl overlay) (range (len tpl))).
Proof.
  intros Ht. unfold fill_pdf. rewrite Ht.
  destruct (create_overlay_pdf w a (len tpl)); cbn; [apply merge_template | reflexivity].
Qed.

(** ** The compositor *)

(** C5: for a template of P pages, whatever [fill_pdf] returns has
    exactly P pages, and it does return when the canvas accepts the texts to
    draw; the merge loop gives P pages for every overlay, and where the
    overlay has fewer pages than the template the remaining template pages
    pass through unchanged. *)
Theorem render_page_count (w : World) (a : gmap string string) (tpl : list page) :
  template w = Readable tpl ->
  (forall out, fill_pdf w a = Ok out -> length out = length tpl) /\
  (draws_ok w a PDF_FIELD_POSITIONS ->
     exists out, fill_pdf w a = Ok out /\ length out = length tpl) /\
  (forall overlay, exists out,
     merge_pages tpl overlay (range (len tpl)) [] = Ok out /\
     length out = length tpl /\
     forall i, (length overlay <= i)%nat -> out !! i = tpl !! i).
Proof.
  intros Ht. rewrite (fill_pdf_readable w a tpl Ht). split; [|split].
  - intros out. destruct (create_overlay_pdf w a (len tpl)); cbn; [|discriminate].
    intros [= <-]. by rewrite length_map, length_range_len.
  - intros Hok. rewrite (create_overlay_pdf_ok w a _ Hok). cbn.
    eexists. split; [reflexivity|]. by rewrite length_map, length_range_len.
  - intros overlay. eexists. split; [apply merge_template|].
    split; [by rewrite length_map, length_range_len|].
    intros i Hi. destruct (decide (i < length tpl)%nat) as [Hlt|Hge].
    + rewrite (lookup_merged tpl overlay i Hlt). unfold merged.
      rewrite Nat2Z.id, (proj2 (lookup_ge_None overlay i) Hi).
      destruct (lookup_lt_is_Some_2 tpl i Hlt) as [pg Hpg].
      unfold page in *. by rewrite Hpg.
    + rewrite (proj2 (lookup_ge_None tpl i)) by lia.
      apply lookup_ge_None. rewrite length_map, length_range_len. lia.
Qed.

Lemma render_page_count_witness :
  exists out,
    fill_pdf (mkWorld (Readable [[Native "page 1"]; [Native "page 2"]]) (fun _ => None))
             (<["full_name" := "Jane Doe"]> (answers default_state)) = Ok out /\
    length out = 2%nat.
Proof.
  destruct (render_page_count
              (mkWorld (Readable [[Native "page 1"]; [Native "page 2"]]) (fun _ => None))
              (<["full_name" := "Jane Doe"]> (answers default_state))
              [[Native "page 1"]; [Native "page 2"]] eq_refl) as (_ & H & _).
  apply H. intros k p x y _ _. reflexivity.
Defined.

(** C6: [fill_pdf] raises [FileNotFoundError] exactly when nothing exists
    at [TEMPLATE_PDF_PATH]; the message of the error contains that path; and
    in that case no document is produced: [fill_pdf] returns no pages, and
    the forward handler at the last step, whenever it returns, reports no
    file (it returns for every value of the text widget but an int of more
    digits than [str] converts, which it refuses before [fill_pdf] is
    reached). *)
Theorem template_missing_error (w : World) (a : gmap string string) :
  (template w = Missing <->
     exists msg, fill_pdf w a = Raise (Exn FileNotFoundError msg)) /\
  (template w = Missing ->
     exists pre post,
       fill_pdf w a =
         Raise (Exn FileNotFoundError (pre +:+ TEMPLATE_PDF_PATH +:+ post))) /\
  (template w = Missing ->
     forall st t n r m, step st = len QUESTIONS - 1 ->
       (forall hr d s, on_next_or_finish w st t n r m = Ok (hr, d, s) ->
          d = UpdFile None false) /\
       (printable t = true ->
          exists hr status,
            on_next_or_finish w st t n r m = Ok (hr, UpdFile None false, status))).
Proof.
  split; [split|split].
  - intros Ht. unfold fill_pdf. rewrite Ht. eexists. reflexivity.
  - intros [msg Hf]. destruct (template w) as [|m|tpl] eqn:Ht; [reflexivity| |].
    + unfold fill_pdf in Hf. rewrite Ht in Hf. discriminate.
    + rewrite (fill_pdf_readable w a tpl Ht) in Hf.
      destruct (create_overlay_pdf w a (len tpl)) as [ov|e] eqn:E; cbn in Hf;
        [discriminate|].
      apply create_overlay_pdf_raise in E. injection Hf as ->. discriminate.
  - intros Ht. unfold fill_pdf. rewrite Ht.
    exists "Template PDF not found at '".
    exists "'. Place the IFP form in the repository and update TEMPLATE_PDF_PATH if needed.".
    reflexivity.
  - intros Ht st t n r m Hstep.
    assert ((step st =? len QUESTIONS - 1) = true) as Hlast
      by (rewrite Hstep; reflexivity).
    assert (forall hr d s, on_next_or_finish w st t n r m = Ok (hr, d, s) ->
              d = UpdFile None false) as Hd.
    { intros hr d s Hn. apply on_next_or_finish_spec in Hn as [_ Hds].
      rewrite Hlast in Hds. unfold finish_report, fill_pdf in Hds. rewrite Ht in Hds.
      by injection Hds as -> _. }
    split; [exact Hd|]. intros Hp.
    pose proof (save_answer_and_move_at st t n r m 0 16
      (mkQuestion "signature_name" "Type your name as signature" "text" None "Jane Doe")
      Hstep eq_refl) as Hat.
    change (raw_value _ t n r m) with t in Hat. change (qtype _) with "text" in Hat.
    destruct (normalize_value_returns t "text" Hp) as [v Hv]. rewrite Hv in Hat.
    destruct Hat as (hr & Hs & _).
    pose proof (on_next_or_finish_cases w st t n r m) as Hc.
    rewrite Hlast, Hs in Hc. exists hr. eexists.
    rewrite Hc. f_equal. f_equal. f_equal. eapply Hd, Hc.
Qed.

(** ** What the overlay shows *)

Lemma PDF_FIELD_POSITIONS_coords : NoDup (coords <$> PDF_FIELD_POSITIONS).
Proof. apply (bool_decide_unpack _). by vm_compute. Qed.

Lemma field_text_at a i f it x y :
  field_text a i f = Some it -> item_at x y it = true -> coords f = (x, y).
Proof.
  destruct f as [k [[p x'] y']]. cbn.
  destruct (_ && _); [|discriminate]. intros [= <-]. cbn.
  intros H. apply andb_true_iff in H as [Hx Hy]. f_equal; lia.
Qed.

Lemma field_text_value a i f k p x y :
  f = (k, (p, x, y)) ->
  field_text a i f =
    if (p =? i) && negb (String.eqb (default "" (a !! k)) "")
    then Some (Text "Helvetica" 10 x y (default "" (a !! k))) else None.
Proof. intros ->. reflexivity. Qed.

Lemma no_text_elsewhere a i x y fields :
  (forall f, f ∈ fields -> coords f <> (x, y)) ->
  List.filter (item_at x y) (page_texts a fields i) = [].
Proof.
  induction fields as [|f fields IH]; intros Hne; [reflexivity|].
  unfold page_texts in *. cbn.
  destruct (field_text a i f) as [it|] eqn:E; cbn.
  - destruct (item_at x y it) eqn:Hat.
    + exfalso. apply (Hne f); [by left|]. eapply field_text_at; eauto.
    + apply IH. intros g Hg. apply Hne. by right.
  - apply IH. intros g Hg. apply Hne. by right.
Qed.

Lemma one_text_per_field a fields k p x y :
  NoDup (coords <$> fields) ->
  (k, (p, x, y)) ∈ fields ->
  List.filter (item_at x y) (page_texts a fields p) =
    if String.eqb (default "" (a !! k)) "" then []
    else [Text "Helvetica" 10 x y (default "" (a !! k))].
Proof.
  induction fields as [|f fields IH]; intros Hnd Hin; [by apply elem_of_nil in Hin|].
  cbn in Hnd. apply NoDup_cons in Hnd as [Hf Hnd].
  apply elem_of_cons in Hin as [<-|Hin].
  - unfold page_texts. cbn [omap list_omap]. fold (page_texts a fields p).
    rewrite (field_text_value a p _ k p x y eq_refl), Z.eqb_refl. cbn [andb].
    assert (List.filter (item_at x y) (page_texts a fields p) = []) as Hrest.
    { apply no_text_elsewhere. intros g Hg E. apply Hf. cbn. rewrite <- E.
      by apply list_elem_of_fmap_2. }
    destruct (String.eqb (default "" (a !! k)) ""); cbn; [exact Hrest|].
    by rewrite !Z.eqb_refl, Hrest.
  - assert (coords f <> (x, y)) as Hne.
    { intros E. apply Hf. rewrite E.
      by apply (list_elem_of_fmap_2 coords fields (k, (p, x, y))). }
    unfold page_texts. cbn [omap list_omap]. fold (page_texts a fields p).
    destruct (field_text a p f) as [it|] eqn:E; cbn; [|by apply IH].
    destruct (item_at x y it) eqn:Hat; [|by apply IH].
    exfalso. apply Hne. eapply field_text_at; eauto.
Qed.

Lemma blank_field_draws_nothing a fields k p x y i it :
  NoDup (coords <$> fields) ->
  (k, (p, x, y)) ∈ fields ->
  default "" (a !! k) = "" ->
  it ∈ page_texts a fields i -> item_at x y it = false.
Proof.
  intros Hnd Hin Hblank Hit.
  destruct (item_at x y it) eqn:Hat; [exfalso|reflexivity].
  unfold page_texts in Hit. apply list_elem_of_omap in Hit as (f & Hf & Hft).
  pose proof (field_text_at a i f it x y Hft Hat) as Hc.
  assert (f = (k, (p, x, y))) as ->.
  { clear Hft. induction fields as [|g fields IH]; [by apply elem_of_nil in Hf|].
    cbn in Hnd. apply NoDup_cons in Hnd as [Hg Hnd].
    apply elem_of_cons in Hf as [->|Hf]; apply elem_of_cons in Hin as [E|Hin].
    - by symmetry.
    - exfalso. apply Hg. rewrite Hc.
      by apply (list_elem_of_fmap_2 coords fields (k, (p, x, y))).
    - exfalso. apply Hg. rewrite <- E. cbn. rewrite <- Hc.
      by apply list_elem_of_fmap_2.
    - by apply IH. }
  rewrite (field_text_value a i _ k p x y eq_refl), Hblank in Hft.
  cbn in Hft. rewrite andb_false_r in Hft. discriminate.
Qed.

(** C8: when the canvas accepts the texts to draw, the overlay is produced
    and, for every field position: if its answer is the empty string, no
    page of the overlay holds any text at its coordinates; if its answer is
    not empty and its page exists, that page holds at its coordinates
    exactly one text, the whole answer in Helvetica 10. *)
Theorem overlay_draws_nonblank_fields (w : World) (a : gmap string string) (n : Z) :
  draws_ok w a PDF_FIELD_POSITIONS ->
  exists overlay,
    create_overlay_pdf w a n = Ok overlay /\
    forall k p x y, (k, (p, x, y)) ∈ PDF_FIELD_POSITIONS ->
      (default "" (a !! k) = "" ->
         forall pg it, pg ∈ overlay -> it ∈ pg -> item_at x y it = false) /\
      (default "" (a !! k) <> "" -> 0 <= p < n ->
         exists pg, overlay !! Z.to_nat p = Some pg /\
           List.filter (item_at x y) pg =
             [Text "Helvetica" 10 x y (default "" (a !! k))]).
Proof.
  intros Hok. eexists. split; [apply create_overlay_pdf_ok, Hok|].
  intros k p x y Hin. split.
  - intros Hblank pg it Hpg Hit.
    apply list_elem_of_fmap in Hpg as (i & -> & _).
    eapply blank_field_draws_nothing; eauto using PDF_FIELD_POSITIONS_coords.
  - intros Hv Hp. eexists. split.
    + rewrite list_lookup_fmap. unfold range.
      rewrite (proj2 (lookup_seqZ 0 n (Z.to_nat p) p)) by lia. reflexivity.
    + rewrite (one_text_per_field a _ k p x y PDF_FIELD_POSITIONS_coords Hin).
      destruct (String.eqb_spec (default "" (a !! k)) ""); [contradiction|reflexivity].
Qed.

Lemma overlay_draws_nonblank_fields_witness :
  exists overlay,
    create_overlay_pdf (mkWorld Missing (fun _ => None))
      (<["full_name" := "Jane Doe"]> (answers default_state)) 1 = Ok overlay /\
    forall k p x y, (k, (p, x, y)) ∈ PDF_FIELD_POSITIONS ->
      (default "" (<["full_name" := "Jane Doe"]> (answers default_state) !! k) = "" ->
         forall pg it, pg ∈ overlay -> it ∈ pg -> item_at x y it = false) /\
      (default "" (<["full_name" := "Jane Doe"]> (answers default_state) !! k) <> "" ->
       0 <= p < 1 ->
         exists pg, overlay !! Z.to_nat p = Some pg /\
           List.filter (item_at x y) pg =
             [Text "Helvetica" 10 x y
                (default "" (<["full_name" := "Jane Doe"]> (answers default_state) !! k))]).
Proof.
  apply (overlay_draws_nonblank_fields (mkWorld Missing (fun _ => None))
           (<["full_name" := "Jane Doe"]> (answers default_state)) 1).
  intros k p x y _ _. reflexivity.
Defined.

(** ** Failures while drawing *)

Lemma draw_fields_fails w a i fields k x y msg : forall c,
  (k, (i, x, y)) ∈ fields ->
  default "" (a !! k) <> "" ->
  draw_failure w (default "" (a !! k)) = Some msg ->
  exists e, draw_fields w a i fields c = Raise e.
Proof.
  induction fields as [|[k' [[p' x'] y']] fields IH]; intros c Hin Hv Hf;
    [by apply elem_of_nil in Hin|].
  apply elem_of_cons in Hin as [E|Hin].
  - injection E as <- <- <- <-. cbn. rewrite Z.eqb_refl. cbn.
    destruct (String.eqb_spec (default "" (a !! k)) ""); [contradiction|]. cbn.
    unfold drawString. rewrite Hf. cbn. eauto.
  - cbn. destruct (negb (p' =? i)); [by apply IH|].
    destruct (negb _); [|by apply IH].
    destruct (drawString w _ x' y' _) as [c'|e]; cbn; [by apply IH | eauto].
Qed.

Lemma draw_pages_fails w a idxs k p x y msg : forall c,
  (k, (p, x, y)) ∈ PDF_FIELD_POSITIONS -> p ∈ idxs ->
  default "" (a !! k) <> "" ->
  draw_failure w (default "" (a !! k)) = Some msg ->
  exists e, draw_pages w a idxs c = Raise e.
Proof.
  induction idxs as [|i idxs IH]; intros c Hin Hp Hv Hf; [by apply elem_of_nil in Hp|].
  cbn. destruct (draw_fields w a i PDF_FIELD_POSITIONS c) as [c1|e] eqn:E; cbn; [|eauto].
  apply elem_of_cons in Hp as [->|Hp]; [|by apply IH].
  destruct (draw_fields_fails w a i _ k x y msg c Hin Hv Hf) as [e He]. congruence.
Qed.

(** C2, as stated, fails: with a readable template, a canvas that refuses
    the text of the single field [full_name] makes the whole render raise;
    no document is produced, and the field [address], which the canvas would
    accept, is never reached. *)
Lemma draw_failure_aborts_render_example :
  template (refusing_world "Jane Doe") = Readable [[Native "form"]] /\
  draw_failure (refusing_world "Jane Doe") "12 Elm St" = None /\
  fill_pdf (refusing_world "Jane Doe") two_answers =
    Raise (Exn CanvasError "cannot draw text") /\
  ~ returns (fill_pdf (refusing_world "Jane Doe") two_answers).
Proof.
  assert (fill_pdf (refusing_world "Jane Doe") two_answers =
          Raise (Exn CanvasError "cannot draw text")) as H by (vm_compute; reflexivity).
  repeat split; try reflexivity; try exact H.
  intros [out Hout]. rewrite H in Hout. discriminate.
Qed.

(** C2, amended: a failure while drawing the text of a field aborts the
    render.  If some field of an existing page has a non-empty answer that
    the canvas refuses, [create_overlay_pdf] and [fill_pdf] raise a canvas
    error and return no document; the forward handler at the last step then
    returns, with no file and a status that starts with
    [Could not generate PDF: ]. *)
Theorem draw_failure_aborts_render (w : World) (a : gmap string string)
    (tpl : list page) (k : string) (p x y : Z) (msg : string) :
  template w = Readable tpl ->
  (k, (p, x, y)) ∈ PDF_FIELD_POSITIONS ->
  0 <= p < len tpl ->
  default "" (a !! k) <> "" ->
  draw_failure w (default "" (a !! k)) = Some msg ->
  exists e,
    exn_class e = CanvasError /\
    create_overlay_pdf w a (len tpl) = Raise e /\
    fill_pdf w a = Raise e /\
    forall st t n r m hr d s,
      step st = len QUESTIONS - 1 ->
      on_next_or_finish w st t n r m = Ok (hr, d, s) ->
      answers (result_state hr) = a ->
      d = UpdFile None false /\
      s = "Could not generate PDF: " +:+ exn_msg e.
Proof.
  intros Ht Hin Hp Hv Hf.
  assert (p ∈ range (len tpl)) as Hr by (unfold range; apply elem_of_seqZ; lia).
  destruct (draw_pages_fails w a _ k p x y msg new_canvas Hin Hr Hv Hf) as [e He].
  assert (create_overlay_pdf w a (len tpl) = Raise e) as Hc.
  { unfold create_overlay_pdf. by rewrite He. }
  assert (fill_pdf w a = Raise e) as Hfill.
  { rewrite (fill_pdf_readable w a tpl Ht), Hc. reflexivity. }
  exists e. split; [eapply create_overlay_pdf_raise, Hc|].
  split; [exact Hc|]. split; [exact Hfill|].
  intros st t n r m hr d s Hstep Hn Ha.
  apply on_next_or_finish_spec in Hn as [_ Hds].
  rewrite Ha, Hstep in Hds.
  change (len QUESTIONS - 1 =? len QUESTIONS - 1) with true in Hds.
  unfold finish_report in Hds. rewrite Hfill in Hds. by injection Hds as -> ->.
Qed.

Lemma draw_failure_aborts_render_witness :
  exists e,
    exn_class e = CanvasError /\
    create_overlay_pdf (refusing_world "Jane Doe") two_answers
      (len [[Native "form"]]) = Raise e /\
    fill_pdf (refusing_world "Jane Doe") two_answers = Raise e /\
    forall st t n r m hr d s,
      step st = len QUESTIONS - 1 ->
      on_next_or_finish (refusing_world "Jane Doe") st t n r m = Ok (hr, d, s) ->
      answers (result_state hr) = two_answers ->
      d = UpdFile None false /\
      s = "Could not generate PDF: " +:+ exn_msg e.
Proof.
  apply (draw_failure_aborts_render (refusing_world "Jane Doe") two_answers
           [[Native "form"]] "full_name" 0 120 700 "cannot draw text").
  - reflexivity.
  - by left.
  - vm_compute. split; [discriminate | reflexivity].
  - vm_compute. discriminate.
  - reflexivity.
Defined.

(** ** Numeric normalisation *)

Lemma int_of_str_str_int z : int_of_str (str_int z) = Some z.
Proof.
  unfold int_of_str, str_int. rewrite NilZero.isi.
  - cbn. by rewrite DecimalZ.of_to.
  - destruct z; cbn; try discriminate.
    intros [= H]. by apply DecimalPos.Unsigned.to_uint_nonnil in H.
  - destruct z; cbn; try discriminate.
    intros [= H]. by apply DecimalPos.Unsigned.to_uint_nonnil in H.
Qed.

Lemma div_half_even_nearest n d :
  0 <= n -> 0 < d ->
  0 <= div_half_even n d /\ Z.abs (2 * (n - div_half_even n d * d)) <= d.
Proof.
  intros Hn Hd. unfold div_half_even.
  pose proof (Z.div_mod n d ltac:(lia)) as Hdm.
  pose proof (Z.mod_pos_bound n d Hd) as Hr.
  pose proof (Z.div_pos n d Hn Hd) as Hq.
  set (q := n / d) in *. set (r := n mod d) in *.
  assert (n - q * d = r) as E1 by lia.
  assert (n - (q + 1) * d = r - d) as E2 by lia.
  destruct (2 * r <? d) eqn:H1; [rewrite E1; lia|].
  destruct (d <? 2 * r) eqn:H2; [rewrite E2; lia|].
  destruct (Z.even q); [rewrite E1 | rewrite E2]; lia.
Qed.

Lemma int_of_float_whole f :
  is_integer f = true -> exists z, int_of_float f = Ok z /\ is_whole f z.
Proof.
  destruct f as [s|s| |s m e]; cbn; try discriminate.
  - intros _. eauto.
  - unfold magnitude. destruct (0 <=? e) eqn:He; intros Hi.
    + eexists. split; [reflexivity|]. destruct s; lia.
    + eexists. split; [reflexivity|].
      apply Z.eqb_eq in Hi.
      assert (0 < 2 ^ (- e)) as Hpos by (apply Z.pow_pos_nonneg; lia).
      pose proof (Z.div_mod (Z.pos m) (2 ^ (- e)) ltac:(lia)) as Hdm.
      destruct s; lia.
Qed.

Lemma two_digits_spec j :
  0 <= j < 100 ->
  String.length (two_digits j) = 2%nat /\ int_of_str (two_digits j) = Some j.
Proof.
  intros Hj.
  assert (forallb (fun i =>
            Nat.eqb (String.length (two_digits (Z.of_nat i))) 2 &&
            bool_decide (int_of_str (two_digits (Z.of_nat i)) = Some (Z.of_nat i)))
            (seq 0 100) = true) as H by (vm_compute; reflexivity).
  rewrite forallb_forall in H. specialize (H (Z.to_nat j)).
  rewrite Z2Nat.id in H by lia.
  destruct (andb_prop _ _ (H ltac:(apply in_seq; lia))) as [H1 H2].
  split; [by apply Nat.eqb_eq | by apply bool_decide_eq_true in H2].
Qed.

Lemma fixed2_denotes s k : 0 <= k -> denotes_hundredths s k (fixed2 s k).
Proof.
  intros Hk. exists (str_int (k / 100)), (two_digits (k mod 100)).
  destruct (two_digits_spec (k mod 100)) as [Hl Hr]; [apply Z.mod_pos_bound; lia|].
  split; [reflexivity|]. split; [apply int_of_str_str_int|]. by split.
Qed.

Lemma format_2f_two_decimals f :
  match f with S754_infinity _ | S754_nan => False | _ => True end ->
  is_two_decimals f (format_2f f).
Proof.
  destruct f as [s|s| |s m e]; cbn; try contradiction; intros _;
    [by apply fixed2_denotes|].
  unfold magnitude, hundredths. destruct (0 <=? e) eqn:He.
  - assert (0 <= 2 ^ e) by (apply Z.pow_nonneg; lia).
    exists (Z.pos m * 100 * 2 ^ e). split; [lia|].
    split; [lia | apply fixed2_denotes; lia].
  - assert (0 < 2 ^ (- e)) as Hpos by (apply Z.pow_pos_nonneg; lia).
    destruct (div_half_even_nearest (Z.pos m * 100) (2 ^ (- e)) ltac:(lia) Hpos)
      as [Hk Hn].
    eexists. split; [exact Hk|]. split; [|by apply fixed2_denotes].
    replace (100 * Z.pos m) with (Z.pos m * 100) by lia. exact Hn.
Qed.

Lemma normalize_huge_int :
  exists e, normalize_value (VInt huge_int) "number" = Raise e /\
            exn_class e = ValueError.
Proof. vm_compute. eexists. split; reflexivity. Qed.

(** C3, as stated, fails on an int of 4301 digits: [float] overflows on
    it, and [str], to which the handler of that error falls back, refuses
    it, so that normalisation raises to the caller.  It also fails on a text
    such as [Infinity]: it parses, to no whole number and to no number with
    a fractional part, and what is stored is [inf]. *)
Lemma number_rule_counterexamples :
  (exists e, normalize_value (VInt huge_int) "number" = Raise e /\
             exn_class e = ValueError) /\
  ~ returns (normalize_value (VInt huge_int) "number") /\
  normalize_value (VStr "Infinity") "number" = Ok "inf" /\
  ~ number_rule (VStr "Infinity") "inf".
Proof.
  pose proof normalize_huge_int as H.
  split; [exact H|]. split; [|split; [vm_compute; reflexivity|]].
  - destruct H as (e & He & _). intros [out Hout]. rewrite He in Hout. discriminate.
  - assert (py_float (VStr "Infinity") = Ok (S754_infinity false)) as E
      by (vm_compute; reflexivity).
    unfold number_rule. rewrite E. intros [(z & [] & _) | [_ []]].
Qed.

Lemma number_branch_spec v :
  printable v = true ->
  exists out,
    try_except
      (n ← py_float v;
       if is_integer n then z ← int_of_float n; Ok (str_int z)
       else Ok (format_2f n))
      (fun _ => py_str v) = Ok out /\
    number_outcome v out.
Proof.
  intros Hp. unfold number_outcome.
  destruct (py_float v) as [f|e]; cbn.
  2:{ destruct (py_str_printable v Hp) as [out Ho]. exists out. by rewrite Ho. }
  destruct (is_integer f) eqn:Hi.
  - destruct (int_of_float_whole f Hi) as (z & -> & Hz). cbn.
    exists (str_int z). split; [reflexivity|].
    destruct f; try discriminate; eauto using int_of_str_str_int.
  - cbn. eexists. split; [reflexivity|].
    destruct f; try reflexivity; by apply format_2f_two_decimals.
Qed.

(** C3, amended: for every value other than an int of more digits than
    [str] converts (4300), normalisation under type NUMBER returns, and it
    raises for no other value.  [None] is stored as the empty string.  Any
    other value that does not parse as a float is stored as its own string.
    A value that parses to a whole number is stored as the decimal text of
    that integer; one that parses to a finite number with a fractional part
    is stored rounded to the nearest hundredth with exactly two digits
    after the point; one that parses to an infinity or to a NaN is stored
    as [inf], [-inf] or [nan].  The values are [None], bools, ints, floats,
    and strings of code points below 256. *)
Theorem normalize_number (v : pyval) :
  (printable v = true ->
     exists out,
       normalize_value v "number" = Ok out /\
       match v with
       | VNone => out = ""
       | _ => number_outcome v out
       end) /\
  (forall e, normalize_value v "number" = Raise e ->
     exn_class e = ValueError /\
     exists z, v = VInt z /\ int_max_str_digits < ndigits (Z.abs z)) /\
  normalize_value (VStr "1500.0") "number" = Ok "1500" /\
  normalize_value (VStr "1500.5") "number" = Ok "1500.50" /\
  normalize_value (VStr "abc") "number" = Ok "abc".
Proof.
  split; [|split].
  - intros Hp. destruct v; [by exists "" | by apply number_branch_spec ..].
  - intros e. apply normalize_value_raise.
  - by vm_compute.
Qed.

(** * Further properties of the handlers *)

(** ** Questions and their widgets *)

Lemma QUESTIONS_index i q :
  QUESTIONS !! i = Some q -> index_of q QUESTIONS = Ok (Z.of_nat i).
Proof.
  intros H.
  do 17 (destruct i as [|i];
         [vm_compute in H; injection H as <-; vm_compute; reflexivity|]).
  vm_compute in H. discriminate.
Qed.

Lemma QUESTIONS_qtypes :
  Forall (fun q => qtype q ∈ ["text"; "number"; "radio"; "multiline"]) QUESTIONS.
Proof. apply (bool_decide_unpack _). by vm_compute. Qed.

(** X1: [current_question] never raises and clamps its argument: a step
    below 0 gives the first question (not, as a bare negative index would,
    one counted from the end), a step beyond the last index gives the last
    question, and a step within range gives the question at that index. *)
Theorem current_question_clamps (i : Z) :
  exists q,
    current_question i = Ok q /\
    (i <= 0 -> QUESTIONS !! 0%nat = Some q) /\
    (len QUESTIONS - 1 <= i -> QUESTIONS !! 16%nat = Some q) /\
    (0 <= i <= len QUESTIONS - 1 -> QUESTIONS !! Z.to_nat i = Some q).
Proof.
  destruct (current_question_ok i) as (q & Hq & Hl). exists q.
  split; [exact Hq|]. unfold clamp in Hl. rewrite len_QUESTIONS in *.
  repeat split; intros Hi.
  - replace (Z.max 0 (Z.min i (17 - 1))) with 0 in Hl by lia. exact Hl.
  - replace (Z.max 0 (Z.min i (17 - 1))) with 16 in Hl by lia. exact Hl.
  - replace (Z.max 0 (Z.min i (17 - 1))) with i in Hl by lia. exact Hl.
Qed.

Lemma QUESTIONS_keys : NoDup (key <$> QUESTIONS).
Proof. apply (bool_decide_unpack _). by vm_compute. Qed.

Lemma QUESTIONS_key_inj i j q q' :
  QUESTIONS !! i = Some q -> QUESTIONS !! j = Some q' -> key q = key q' -> i = j.
Proof.
  intros Hi Hj Hk.
  apply (NoDup_lookup (key <$> QUESTIONS) i j (key q) QUESTIONS_keys).
  - by rewrite list_lookup_fmap, Hi.
  - by rewrite list_lookup_fmap, Hj, Hk.
Qed.

Lemma ui_for_question_progress i q value tu nu ru mu prog :
  QUESTIONS !! i = Some q ->
  ui_for_question q value = Ok (tu, nu, ru, mu, prog) ->
  prog = "Question " +:+ str_int (Z.of_nat i + 1) +:+ " of " +:+ str_int (len QUESTIONS).
Proof.
  intros H. unfold ui_for_question. rewrite (QUESTIONS_index i q H).
  destruct (if String.eqb (qtype q) "text" then _ else _) as [[[a b] c] d].
  cbn. intros [= _ _ _ _ <-]. reflexivity.
Qed.

(** X2: for a question of the list, [ui_for_question] returns and shows
    exactly one of the four input widgets, the one of the question's type;
    the progress text counts the question's position from 1 out of the
    number of questions. *)
Theorem one_widget_shown (i : nat) (q : Question) (value : string) :
  QUESTIONS !! i = Some q ->
  exists tu nu ru mu prog,
    ui_for_question q value = Ok (tu, nu, ru, mu, prog) /\
    visible tu = String.eqb (qtype q) "text" /\
    visible nu = String.eqb (qtype q) "number" /\
    visible ru = String.eqb (qtype q) "radio" /\
    visible mu = String.eqb (qtype q) "multiline" /\
    length (List.filter visible [tu; nu; ru; mu]) = 1%nat /\
    prog = "Question " +:+ str_int (Z.of_nat i + 1) +:+ " of " +:+ str_int (len QUESTIONS).
Proof.
  intros H. unfold ui_for_question. rewrite (QUESTIONS_index i q H).
  pose proof QUESTIONS_qtypes as Hall. rewrite Forall_forall in Hall.
  specialize (Hall q (list_elem_of_lookup_2 _ _ _ H)).
  rewrite !elem_of_cons, elem_of_nil in Hall.
  destruct Hall as [E|[E|[E|[E|[]]]]]; rewrite E; cbn;
    eexists _, _, _, _, _; repeat split; reflexivity.
Qed.

Lemma one_widget_shown_witness :
  exists tu nu ru mu prog,
    ui_for_question (mkQuestion "case_type" "Type of case" "radio"
      (Some [ "Dissolution of Marriage (Divorce)"; "Legal Separation";
              "Modification/Post-Decree"; "Other Family Law" ]) "") "Legal Separation"
      = Ok (tu, nu, ru, mu, prog) /\
    visible tu = false /\ visible nu = false /\ visible ru = true /\ visible mu = false /\
    length (List.filter visible [tu; nu; ru; mu]) = 1%nat /\
    prog = "Question " +:+ str_int (Z.of_nat 5 + 1) +:+ " of " +:+ str_int (len QUESTIONS).
Proof.
  apply (one_widget_shown 5 (mkQuestion "case_type" "Type of case" "radio"
      (Some [ "Dissolution of Marriage (Divorce)"; "Legal Separation";
              "Modification/Post-Decree"; "Other Family Law" ]) "") "Legal Separation").
  reflexivity.
Defined.

(** X3: for a question that is not in the list, [ui_for_question] raises
    the [ValueError] of [QUESTIONS.index]; no widget update is returned. *)
Theorem unknown_question_raises (q : Question) (value : string) :
  q ∉ QUESTIONS ->
  exists e, ui_for_question q value = Raise e /\ exn_class e = ValueError.
Proof.
  intros Hq. unfold ui_for_question, index_of.
  destruct (list_find (fun q' => q' = q) QUESTIONS) as [[i x]|] eqn:E.
  - apply list_find_Some in E as (Hl & -> & _).
    exfalso. apply Hq. eapply list_elem_of_lookup_2, Hl.
  - destruct (if String.eqb (qtype q) "text" then _ else _) as [[[a b] c] d].
    cbn. eexists. split; reflexivity.
Qed.

Lemma unknown_question_raises_witness :
  exists e,
    ui_for_question (mkQuestion "spouse_name" "Name of spouse" "text" None "") "" = Raise e /\
    exn_class e = ValueError.
Proof.
  apply (unknown_question_raises (mkQuestion "spouse_name" "Name of spouse" "text" None "") "").
  apply (bool_decide_unpack _). vm_compute. exact I.
Defined.

(** ** What a transition returns *)

(** X4: a transition by any [delta], from any state, that returns, returns
    the widgets of the question at the step it moves to, filled with the
    answer stored for that question, and a progress text that counts that
    step from 1.  It returns whenever no widget delivers an int of more
    digits than [str] converts. *)
Theorem transition_shows_new_question (st : State) (t n r m : pyval) (delta : Z) :
  (forall hr, save_answer_and_move st t n r m delta = Ok hr ->
     exists q2 prog,
       QUESTIONS !! Z.to_nat (step (result_state hr)) = Some q2 /\
       ui_for_question q2 (default "" (answers (result_state hr) !! key q2))
         = Ok (result_widgets hr, prog) /\
       result_progress hr = prog /\
       prog = "Question " +:+ str_int (step (result_state hr) + 1) +:+ " of " +:+
              str_int (len QUESTIONS)) /\
  (widgets_printable t n r m = true ->
     exists hr, save_answer_and_move st t n r m delta = Ok hr).
Proof.
  split; [|apply save_answer_and_move_returns].
  intros hr Hs. destruct (save_answer_and_move_cases st t n r m delta) as (q & Hq & Hc).
  destruct (normalize_value (raw_value q t n r m) (qtype q)) as [v|e];
    [|rewrite Hc in Hs; discriminate].
  destruct Hc as (q2 & tu & nu & ru & mu & prog & Hq2 & Hui & Hc).
  rewrite Hc in Hs. injection Hs as <-.
  exists q2, prog. cbn [result_state result_widgets result_progress step answers].
  split; [exact Hq2|]. split; [exact Hui|]. split; [reflexivity|].
  rewrite (ui_for_question_progress _ _ _ _ _ _ _ _ Hq2 Hui).
  rewrite Z2Nat.id by apply clamp_range. reflexivity.
Qed.

(** X5: after a transition that returns, the Back button is enabled
    exactly when the new step is not the first question, and the forward
    button reads [Finish & Generate PDF] exactly when the new step is the
    last question and [Next] otherwise.  The transition returns whenever no
    widget delivers an int of more digits than [str] converts. *)
Theorem transition_buttons (st : State) (t n r m : pyval) (delta : Z) :
  (forall hr, save_answer_and_move st t n r m delta = Ok hr ->
     result_back hr = UpdInteractive (negb (step (result_state hr) =? 0)) /\
     (step (result_state hr) = len QUESTIONS - 1 ->
        result_next hr = UpdValue "Finish & Generate PDF") /\
     (step (result_state hr) <> len QUESTIONS - 1 -> result_next hr = UpdValue "Next")) /\
  (widgets_printable t n r m = true ->
     exists hr, save_answer_and_move st t n r m delta = Ok hr).
Proof.
  split; [|apply save_answer_and_move_returns].
  intros hr Hs. destruct (save_answer_and_move_cases st t n r m delta) as (q & Hq & Hc).
  destruct (normalize_value (raw_value q t n r m) (qtype q)) as [v|e];
    [|rewrite Hc in Hs; discriminate].
  destruct Hc as (q2 & tu & nu & ru & mu & prog & _ & _ & Hc).
  rewrite Hc in Hs. injection Hs as <-.
  cbn [result_state result_back result_next step].
  pose proof (clamp_range (step st + delta)) as Hr.
  split; [|split].
  - f_equal. destruct (Z.eqb_spec (clamp (step st + delta)) 0) as [->|]; [reflexivity|].
    cbn. lia.
  - intros ->. by rewrite Z.eqb_refl.
  - intros Hne. by destruct (Z.eqb_spec (clamp (step st + delta)) (len QUESTIONS - 1)).
Qed.

(** ** Sessions *)

Lemma press_range s c :
  0 <= s <= len QUESTIONS - 1 -> 0 <= press s c <= len QUESTIONS - 1.
Proof. rewrite len_QUESTIONS. destruct c; cbn; rewrite ?len_QUESTIONS; lia. Qed.

Lemma apply_call_step w st c st' :
  0 <= step st <= len QUESTIONS - 1 ->
  apply_call w st c = Ok st' ->
  exists q v,
    QUESTIONS !! Z.to_nat (step st) = Some q /\
    st' = {| step := press (step st) c; answers := <[key q := v]> (answers st) |}.
Proof.
  intros Hst Hc.
  assert (clamp (step st) = step st) as Hcl by (unfold clamp; lia).
  destruct (apply_call_spec w st c st' Hc) as (q & v & Hq & ->).
  rewrite Hcl in Hq. exists q, v. split; [exact Hq|]. f_equal.
  unfold clamp. rewrite len_QUESTIONS in *.
  destruct c; cbn [call_delta press]; rewrite ?len_QUESTIONS;
    [destruct (Z.eqb_spec (step st) (17 - 1))|]; lia.
Qed.

Lemma apply_calls_step w cs : forall st st',
  0 <= step st <= len QUESTIONS - 1 ->
  apply_calls w st cs = Ok st' -> step st' = foldl press (step st) cs.
Proof.
  induction cs as [|c cs IH]; intros st st' Hst; cbn [apply_calls foldl].
  - by intros [= <-].
  - destruct (apply_call w st c) as [st1|e] eqn:Hc; cbn; [|discriminate].
    destruct (apply_call_step w st c st1 Hst Hc) as (q & v & _ & ->).
    intros Hrun. apply IH in Hrun; [exact Hrun|]. cbn [step]. by apply press_range.
Qed.

Lemma default_answers_blank j q :
  QUESTIONS !! j = Some q -> answers default_state !! key q = Some "".
Proof.
  intros H.
  do 17 (destruct j as [|j];
         [vm_compute in H; injection H as <-; vm_compute; reflexivity|]).
  vm_compute in H. discriminate.
Qed.

Lemma foldl_advance_step (cs : list call) : forall s,
  forallb is_advance cs = true -> 0 <= s <= len QUESTIONS - 1 ->
  foldl press s cs = Z.min (s + len cs) (len QUESTIONS - 1).
Proof.
  rewrite len_QUESTIONS.
  induction cs as [|c cs IH]; intros s Hall Hs.
  - unfold len. cbn. lia.
  - cbn in Hall. apply andb_true_iff in Hall as [Hc Hall].
    destruct c; [|discriminate]. cbn [foldl press]. rewrite len_QUESTIONS.
    rewrite (IH _ Hall) by lia. unfold len. cbn [length]. lia.
Qed.

Lemma apply_calls_blank w cs : forall st (k : nat) st',
  0 <= step st <= len QUESTIONS - 1 -> step st <= Z.of_nat k ->
  (forall j q, (k <= j)%nat -> QUESTIONS !! j = Some q ->
     answers st !! key q = Some "") ->
  apply_calls w st cs = Ok st' ->
  forall j q, (k + length cs <= j)%nat -> QUESTIONS !! j = Some q ->
    answers st' !! key q = Some "".
Proof.
  induction cs as [|c cs IH]; intros st k st' Hst Hk Hb; cbn [apply_calls length].
  - intros [= <-] j q Hj. apply Hb. lia.
  - destruct (apply_call w st c) as [st1|e] eqn:Hc; cbn; [|discriminate].
    destruct (apply_call_step w st c st1 Hst Hc) as (q0 & v & Hq0 & ->).
    intros Hrun j q Hj.
    apply (IH {| step := press (step st) c; answers := <[key q0 := v]> (answers st) |}
              (S k) st'); [| | |exact Hrun|lia].
    + cbn [step]. by apply press_range.
    + cbn [step]. rewrite len_QUESTIONS in Hst. destruct c; cbn; rewrite ?len_QUESTIONS; lia.
    + intros j' q' Hj' Hq'. cbn [answers].
      rewrite lookup_insert_ne; [apply (Hb j' q'); [lia|done]|].
      intros Hkey. pose proof (QUESTIONS_key_inj _ _ _ _ Hq0 Hq' Hkey). lia.
Qed.

(** X6: in a session the step depends on the buttons alone: after [start]
    and any sequence of presses that return, the step is what counting the
    presses gives, one forward up to the last question and one back down to
    the first, whatever the widgets held and whatever happened to the
    template or the canvas.  The presses return whenever no widget delivers
    an int of more digits than [str] converts. *)
Theorem step_follows_buttons (w : World) (cs : list call) :
  (forall st, run w cs = Ok st -> step st = foldl press 0 cs) /\
  (forallb call_printable cs = true -> exists st, run w cs = Ok st).
Proof.
  split; [|apply run_returns]. intros st. rewrite run_apply_calls.
  apply (apply_calls_step w cs default_state). rewrite len_QUESTIONS. cbn. lia.
Qed.

(** X7: after [start], pressing the forward button [k] times and nothing
    else leads, when the presses return, to question [k], and to the last
    question once [k] reaches the number of questions.  The presses return
    whenever no widget delivers an int of more digits than [str]
    converts. *)
Theorem forward_presses_reach_question (w : World) (cs : list call) :
  forallb is_advance cs = true ->
  (forall st, run w cs = Ok st -> step st = Z.min (len cs) (len QUESTIONS - 1)) /\
  (forallb call_printable cs = true -> exists st, run w cs = Ok st).
Proof.
  intros Hall. split; [|apply run_returns]. intros st. rewrite run_apply_calls.
  intros Hrun. rewrite (apply_calls_step w cs default_state st); [| |exact Hrun].
  - rewrite (foldl_advance_step cs _ Hall); [reflexivity|].
    rewrite len_QUESTIONS. cbn. lia.
  - rewrite len_QUESTIONS. cbn. lia.
Qed.

Lemma forward_presses_reach_question_witness :
  (forall st,
     run (mkWorld Missing (fun _ => None))
         [advance (VStr "Jane Doe") VNone VNone VNone;
          advance (VStr "12 Elm St") VNone VNone VNone] = Ok st ->
     step st = Z.min (len [advance (VStr "Jane Doe") VNone VNone VNone;
                           advance (VStr "12 Elm St") VNone VNone VNone])
                     (len QUESTIONS - 1)) /\
  (forallb call_printable
     [advance (VStr "Jane Doe") VNone VNone VNone;
      advance (VStr "12 Elm St") VNone VNone VNone] = true ->
   exists st,
     run (mkWorld Missing (fun _ => None))
         [advance (VStr "Jane Doe") VNone VNone VNone;
          advance (VStr "12 Elm St") VNone VNone VNone] = Ok st).
Proof.
  apply (forward_presses_reach_question (mkWorld Missing (fun _ => None))
           [advance (VStr "Jane Doe") VNone VNone VNone;
            advance (VStr "12 Elm St") VNone VNone VNone]).
  reflexivity.
Defined.

(** X8: in a session, the answer of a question that has not been reached
    is still blank: after [start] and [k] presses of either button that
    return, every question at position [k] or later has the empty string as
    its answer.  The presses return whenever no widget delivers an int of
    more digits than [str] converts. *)
Theorem unreached_answers_stay_blank (w : World) (cs : list call)
    (j : nat) (q : Question) :
  (length cs <= j)%nat ->
  QUESTIONS !! j = Some q ->
  (forall st, run w cs = Ok st -> answers st !! key q = Some "") /\
  (forallb call_printable cs = true -> exists st, run w cs = Ok st).
Proof.
  intros Hj Hq. split; [|apply run_returns]. intros st. rewrite run_apply_calls.
  intros Hrun.
  apply (apply_calls_blank w cs default_state 0 st) with (j := j);
    [ rewrite len_QUESTIONS; cbn; lia | cbn; lia
    | intros j' q' _; apply default_answers_blank | exact Hrun | cbn; lia | exact Hq ].
Qed.

Lemma unreached_answers_stay_blank_witness :
  (forall st,
     run (mkWorld Missing (fun _ => None))
         [advance (VStr "Jane Doe") VNone VNone VNone] = Ok st ->
     answers st !! key (mkQuestion "address" "Street address" "text" None "123 Main St")
       = Some "") /\
  (forallb call_printable [advance (VStr "Jane Doe") VNone VNone VNone] = true ->
   exists st,
     run (mkWorld Missing (fun _ => None))
         [advance (VStr "Jane Doe") VNone VNone VNone] = Ok st).
Proof.
  apply (unreached_answers_stay_blank (mkWorld Missing (fun _ => None))
           [advance (VStr "Jane Doe") VNone VNone VNone] 1
           (mkQuestion "address" "Street address" "text" None "123 Main St")).
  - cbn. lia.
  - reflexivity.
Defined.

Lemma start_interview_value st :
  start_interview st =
    Ok (default_state, UpdText "Your full legal name" "" "Jane Doe",
        UpdHidden, UpdHidden, UpdHidden, "Question 1 of 17",
        UpdInteractive false, UpdValue "Next", "").
Proof. vm_compute. reflexivity. Qed.

(** X9: [start_interview] discards the state it is given: whatever that
    state holds, the result is at step 0 with the empty string stored for
    every question, shows the first question with an empty text box, and
    has the Back button disabled and an empty status. *)
Theorem start_interview_resets (st : State) :
  exists hr q0 status,
    start_interview st = Ok (hr, status) /\
    step (result_state hr) = 0 /\
    (forall j q, QUESTIONS !! j = Some q ->
       answers (result_state hr) !! key q = Some "") /\
    dom (answers (result_state hr)) = schema_keys /\
    QUESTIONS !! 0%nat = Some q0 /\
    result_widgets hr = (text_widget q0 "", UpdHidden, UpdHidden, UpdHidden) /\
    result_back hr = UpdInteractive false /\
    result_next hr = UpdValue "Next" /\
    status = "".
Proof.
  eexists _, (mkQuestion "full_name" "Your full legal name" "text" None "Jane Doe"), _.
  split; [apply start_interview_value|].
  cbn [result_state result_widgets result_back result_next].
  split; [reflexivity|]. split; [apply default_answers_blank|].
  split; [apply session_inv_default|]. repeat split; reflexivity.
Qed.

Lemma save_answer_and_move_raise st t n r m delta e :
  save_answer_and_move st t n r m delta = Raise e -> exn_class e = ValueError.
Proof.
  intros Hs. destruct (save_answer_and_move_cases st t n r m delta) as (q & Hq & Hc).
  destruct (normalize_value (raw_value q t n r m) (qtype q)) as [v|e'] eqn:Hv.
  - destruct Hc as (q2 & tu & nu & ru & mu & prog & _ & _ & Hc).
    rewrite Hc in Hs. discriminate.
  - rewrite Hc in Hs. injection Hs as ->. by destruct (normalize_value_raise _ _ _ Hv).
Qed.

(** X10: no failure of the render leaves the forward handler.  When it
    returns, it offers a file for download exactly when it was called at the
    last step and [fill_pdf], on the answers just saved, returned a
    document; that document is the file offered; before the last step
    nothing is rendered: no file and an empty status.  It returns whenever
    no widget delivers an int of more digits than [str] converts, and the
    only exception that leaves it is the [ValueError] of such an int. *)
Theorem file_offered_iff_rendered (w : World) (st : State) (t n r m : pyval) :
  (forall hr d s, on_next_or_finish w st t n r m = Ok (hr, d, s) ->
     (visible d = true <->
        step st = len QUESTIONS - 1 /\
        returns (fill_pdf w (answers (result_state hr)))) /\
     (forall out, d = UpdFile (Some out) true <->
        step st = len QUESTIONS - 1 /\
        fill_pdf w (answers (result_state hr)) = Ok out) /\
     (step st <> len QUESTIONS - 1 -> d = UpdFile None false /\ s = "")) /\
  (widgets_printable t n r m = true ->
     exists hr d s, on_next_or_finish w st t n r m = Ok (hr, d, s)) /\
  (forall e, on_next_or_finish w st t n r m = Raise e ->
     exn_class e = ValueError /\ widgets_printable t n r m = false).
Proof.
  split; [|split].
  - intros hr d s Hn. apply on_next_or_finish_spec in Hn as [_ Hds].
    unfold finish_report in Hds.
    destruct (Z.eqb_spec (step st) (len QUESTIONS - 1)) as [E|E].
    + destruct (fill_pdf w _) as [out|e]; injection Hds as -> ->; cbn [visible].
      * split; [|split].
        -- split; [intros _; split; [exact E|by eexists] | reflexivity].
        -- intros out'. split; [intros [= <-]; by split | intros [_ [= <-]]; reflexivity].
        -- intros Hne. contradiction.
      * split; [|split].
        -- split; [discriminate | intros [_ [out Hout]]; discriminate].
        -- intros out'. split; [discriminate | intros [_ Hout]; discriminate].
        -- intros Hne. contradiction.
    + injection Hds as -> ->. cbn [visible]. split; [|split].
      * split; [discriminate | intros [Hs _]; contradiction].
      * intros out. split; [discriminate | intros [Hs _]; contradiction].
      * intros _. split; reflexivity.
  - intros Hp. destruct (on_next_or_finish_returns w st t n r m Hp) as [[[hr d] s] Hn].
    eauto.
  - intros e Hn. split.
    + eapply save_answer_and_move_raise, on_next_or_finish_raise, Hn.
    + destruct (widgets_printable t n r m) eqn:Hp; [|reflexivity].
      destruct (on_next_or_finish_returns w st t n r m Hp) as [x Hx].
      rewrite Hx in Hn. discriminate.
Qed.

(** ** Going forward and coming back *)

(** X11: an answer given before pressing the forward button is shown
    again on return.  From a step that is not the last, a forward press
    followed by a backward press, both of which return, leads back to the
    same step; the answer normalised at the forward press is still stored,
    and the widgets returned are those of the same question filled with
    that answer.  For a question of type text answered with a string, the
    text box holds that string unchanged.  Both presses return whenever no
    widget delivers an int of more digits than [str] converts. *)
Theorem answer_shown_on_return (w : World) (st : State) (i : nat) (q : Question)
    (t n r m t' n' r' m' : pyval) :
  step st = Z.of_nat i ->
  QUESTIONS !! i = Some q ->
  (i < 16)%nat ->
  (forall hr1 d s hr2,
     on_next_or_finish w st t n r m = Ok (hr1, d, s) ->
     on_back (result_state hr1) t' n' r' m' = Ok hr2 ->
     exists v prog,
       normalize_value (raw_value q t n r m) (qtype q) = Ok v /\
       step (result_state hr2) = step st /\
       answers (result_state hr2) !! key q = Some v /\
       ui_for_question q v = Ok (result_widgets hr2, prog) /\
       (forall s0, qtype q = "text" -> t = VStr s0 ->
          result_widgets hr2 = (text_widget q s0, UpdHidden, UpdHidden, UpdHidden))) /\
  (widgets_printable t n r m = true -> widgets_printable t' n' r' m' = true ->
     exists hr1 d s hr2,
       on_next_or_finish w st t n r m = Ok (hr1, d, s) /\
       on_back (result_state hr1) t' n' r' m' = Ok hr2).
Proof.
  intros Hstep Hq Hi. split.
  - intros hr1 d s hr2 Hn Hb.
    assert (clamp (Z.of_nat i + 1) = Z.of_nat (S i)) as Hc1
      by (unfold clamp; rewrite len_QUESTIONS; lia).
    assert (clamp (Z.of_nat (S i) + -1) = Z.of_nat i) as Hc2
      by (unfold clamp; rewrite len_QUESTIONS; lia).
    assert (clamp (Z.of_nat (S i)) = Z.of_nat (S i)) as Hc3
      by (unfold clamp; rewrite len_QUESTIONS; lia).
    assert ((step st =? len QUESTIONS - 1) = false) as Hlast
      by (rewrite Hstep, len_QUESTIONS; lia).
    apply on_next_or_finish_spec in Hn as [Hs1 _]. rewrite Hlast in Hs1.
    pose proof (save_answer_and_move_at st t n r m 1 i q Hstep Hq) as Hat.
    destruct (normalize_value (raw_value q t n r m) (qtype q)) as [v|e] eqn:Hv;
      [|rewrite Hat in Hs1; discriminate].
    destruct Hat as (hr & Hs & Hr1). rewrite Hs in Hs1. injection Hs1 as <-.
    rewrite Hstep, Hc1 in Hr1. unfold on_back in Hb. rewrite Hr1 in Hb.
    destruct (save_answer_and_move_cases
                {| step := Z.of_nat (S i); answers := <[key q := v]> (answers st) |}
                t' n' r' m' (-1)) as (q1 & Hq1 & Hc).
    cbn [step answers] in Hq1, Hc. rewrite Hc3, Nat2Z.id in Hq1.
    destruct (normalize_value (raw_value q1 t' n' r' m') (qtype q1)) as [v1|e1];
      [|rewrite Hc in Hb; discriminate].
    destruct Hc as (q2 & tu & nu & ru & mu & prog & Hq2 & Hui & Hc).
    rewrite Hc in Hb. injection Hb as <-.
    rewrite Hc2, Nat2Z.id, Hq in Hq2. injection Hq2 as <-.
    assert (key q1 <> key q) as Hne.
    { intros Hk. pose proof (QUESTIONS_key_inj _ _ _ _ Hq1 Hq Hk). lia. }
    rewrite lookup_insert_ne, lookup_insert_eq in Hui by exact Hne. cbn [default] in Hui.
    exists v, prog. cbn [result_state result_widgets step answers].
    split; [reflexivity|]. split; [by rewrite Hc2, Hstep|].
    split; [by rewrite lookup_insert_ne, lookup_insert_eq|].
    split; [exact Hui|].
    intros s0 Hty ->. unfold raw_value in Hv. rewrite Hty in Hv. cbn in Hv.
    injection Hv as <-. unfold ui_for_question in Hui.
    rewrite (QUESTIONS_index i q Hq), Hty in Hui. cbn in Hui.
    by injection Hui as <- <- <- <- _.
  - intros Hp Hp'.
    destruct (on_next_or_finish_returns w st t n r m Hp) as [[[hr1 d] s] Hn].
    destruct (save_answer_and_move_returns (result_state hr1) t' n' r' m' (-1) Hp')
      as [hr2 Hb].
    exists hr1, d, s, hr2. split; [exact Hn|exact Hb].
Qed.

Lemma answer_shown_on_return_witness :
  (forall hr1 d s hr2,
     on_next_or_finish (mkWorld Missing (fun _ => None)) default_state
       (VStr "Ann Lee") VNone VNone VNone = Ok (hr1, d, s) ->
     on_back (result_state hr1) (VStr "1 Oak St") VNone VNone VNone = Ok hr2 ->
     exists v prog,
       normalize_value
         (raw_value (mkQuestion "full_name" "Your full legal name" "text" None "Jane Doe")
                    (VStr "Ann Lee") VNone VNone VNone) "text" = Ok v /\
       step (result_state hr2) = 0 /\
       answers (result_state hr2) !! "full_name" = Some v /\
       ui_for_question
         (mkQuestion "full_name" "Your full legal name" "text" None "Jane Doe") v
         = Ok (result_widgets hr2, prog) /\
       (forall s0, "text" = "text" -> VStr "Ann Lee" = VStr s0 ->
          result_widgets hr2 =
            (text_widget
               (mkQuestion "full_name" "Your full legal name" "text" None "Jane Doe") s0,
             UpdHidden, UpdHidden, UpdHidden))) /\
  (widgets_printable (VStr "Ann Lee") VNone VNone VNone = true ->
   widgets_printable (VStr "1 Oak St") VNone VNone VNone = true ->
   exists hr1 d s hr2,
     on_next_or_finish (mkWorld Missing (fun _ => None)) default_state
       (VStr "Ann Lee") VNone VNone VNone = Ok (hr1, d, s) /\
     on_back (result_state hr1) (VStr "1 Oak St") VNone VNone VNone = Ok hr2).
Proof.
  apply (answer_shown_on_return (mkWorld Missing (fun _ => None)) default_state 0
           (mkQuestion "full_name" "Your full legal name" "text" None "Jane Doe")
           (VStr "Ann Lee") VNone VNone VNone (VStr "1 Oak St") VNone VNone VNone).
  - reflexivity.
  - reflexivity.
  - lia.
Defined.

(** ** The completed document *)

Lemma PDF_FIELD_POSITIONS_pages : Forall (fun f => f.2.1.1 = 0) PDF_FIELD_POSITIONS.
Proof. apply (bool_decide_unpack _). by vm_compute. Qed.

Lemma QUESTIONS_have_fields : Forall (fun q => key q ∈ field_keys) QUESTIONS.
Proof. apply (bool_decide_unpack _). by vm_compute. Qed.

Lemma page_texts_other_pages a fields i :
  Forall (fun f => f.2.1.1 = 0) fields -> i <> 0 -> page_texts a fields i = [].
Proof.
  intros Hall Hi. induction Hall as [|[k [[p x] y]] fields Hp _ IH]; [reflexivity|].
  cbn in Hp. subst p. unfold page_texts in *. cbn [omap list_omap field_text].
  destruct (Z.eqb_spec 0 i); [congruence|]. cbn. exact IH.
Qed.

Lemma elem_of_page_texts a fields i it :
  it ∈ page_texts a fields i <->
  exists k x y, (k, (i, x, y)) ∈ fields /\ default "" (a !! k) <> "" /\
                it = answer_text x y (default "" (a !! k)).
Proof.
  unfold page_texts. rewrite list_elem_of_omap. split.
  - intros ([k [[p x] y]] & Hin & Hf). cbn in Hf.
    destruct (Z.eqb_spec p i) as [->|]; [|discriminate].
    destruct (String.eqb_spec (default "" (a !! k)) ""); [discriminate|].
    cbn in Hf. injection Hf as <-. exists k, x, y. done.
  - intros (k & x & y & Hin & Hv & ->). exists (k, (i, x, y)). split; [exact Hin|].
    cbn. rewrite Z.eqb_refl.
    destruct (String.eqb_spec (default "" (a !! k)) ""); [contradiction|reflexivity].
Qed.

Lemma fill_pdf_pages w a tpl :
  template w = Readable tpl ->
  draws_ok w a PDF_FIELD_POSITIONS ->
  exists out,
    fill_pdf w a = Ok out /\
    forall i pg, tpl !! i = Some pg ->
      out !! i = Some (pg ++ page_texts a PDF_FIELD_POSITIONS (Z.of_nat i)).
Proof.
  intros Ht Hok. rewrite (fill_pdf_readable w a tpl Ht), (create_overlay_pdf_ok w a _ Hok).
  cbn. eexists. split; [reflexivity|]. intros i pg Hpg.
  assert (i < length tpl)%nat as Hlt by (eapply lookup_lt_Some; eauto).
  rewrite (lookup_merged tpl _ i Hlt). unfold merged, page in *.
  rewrite Nat2Z.id, Hpg, list_lookup_fmap, (lookup_range_len tpl i Hlt). reflexivity.
Qed.

(** X12: when the template is readable and the canvas accepts the texts,
    every page of the completed document is the template page, unchanged
    and in front, followed by the texts added to it; a text is added to page
    [i] exactly when it is the non-empty answer of a field placed on page
    [i], set in Helvetica 10 at the coordinates of that field. *)
Theorem output_page_contents (w : World) (a : gmap string string) (tpl : list page) :
  template w = Readable tpl ->
  draws_ok w a PDF_FIELD_POSITIONS ->
  exists out,
    fill_pdf w a = Ok out /\
    forall i pg, tpl !! i = Some pg ->
      exists added,
        out !! i = Some (pg ++ added) /\
        forall it, it ∈ added <->
          exists k x y,
            (k, (Z.of_nat i, x, y)) ∈ PDF_FIELD_POSITIONS /\
            default "" (a !! k) <> "" /\
            it = answer_text x y (default "" (a !! k)).
Proof.
  intros Ht Hok. destruct (fill_pdf_pages w a tpl Ht Hok) as (out & Hf & Hpages).
  exists out. split; [exact Hf|]. intros i pg Hpg.
  exists (page_texts a PDF_FIELD_POSITIONS (Z.of_nat i)).
  split; [by apply Hpages|]. intros it. apply elem_of_page_texts.
Qed.

Lemma output_page_contents_witness :
  exists out,
    fill_pdf (mkWorld (Readable [[Native "page 1"]; [Native "page 2"]]) (fun _ => None))
             (<["full_name" := "Jane Doe"]> (answers default_state)) = Ok out /\
    forall i pg, [[Native "page 1"]; [Native "page 2"]] !! i = Some pg ->
      exists added,
        out !! i = Some (pg ++ added) /\
        forall it, it ∈ added <->
          exists k x y,
            (k, (Z.of_nat i, x, y)) ∈ PDF_FIELD_POSITIONS /\
            default "" (<["full_name" := "Jane Doe"]> (answers default_state) !! k) <> "" /\
            it = answer_text x y
                   (default "" (<["full_name" := "Jane Doe"]> (answers default_state) !! k)).
Proof.
  apply (output_page_contents
           (mkWorld (Readable [[Native "page 1"]; [Native "page 2"]]) (fun _ => None))
           (<["full_name" := "Jane Doe"]> (answers default_state))
           [[Native "page 1"]; [Native "page 2"]]).
  - reflexivity.
  - intros k p x y _ _. reflexivity.
Defined.

(** X13: only the first page is written on: when the template is readable
    and the canvas accepts the texts, every page of the completed document
    after the first is the template page, with nothing added, whatever the
    answers are. *)
Theorem only_first_page_written (w : World) (a : gmap string string) (tpl : list page) :
  template w = Readable tpl ->
  draws_ok w a PDF_FIELD_POSITIONS ->
  exists out,
    fill_pdf w a = Ok out /\
    forall i pg, tpl !! S i = Some pg -> out !! S i = Some pg.
Proof.
  intros Ht Hok. destruct (fill_pdf_pages w a tpl Ht Hok) as (out & Hf & Hpages).
  exists out. split; [exact Hf|]. intros i pg Hpg.
  pose proof (Hpages _ _ Hpg) as Ho.
  rewrite (page_texts_other_pages a _ _ PDF_FIELD_POSITIONS_pages) in Ho by lia.
  rewrite app_nil_r in Ho. exact Ho.
Qed.

Lemma only_first_page_written_witness :
  exists out,
    fill_pdf (mkWorld (Readable [[Native "page 1"]; [Native "page 2"]]) (fun _ => None))
             (<["full_name" := "Jane Doe"]> (answers default_state)) = Ok out /\
    forall i pg, [[Native "page 1"]; [Native "page 2"]] !! S i = Some pg ->
      out !! S i = Some pg.
Proof.
  apply (only_first_page_written
           (mkWorld (Readable [[Native "page 1"]; [Native "page 2"]]) (fun _ => None))
           (<["full_name" := "Jane Doe"]> (answers default_state))
           [[Native "page 1"]; [Native "page 2"]]).
  - reflexivity.
  - intros k p x y _ _. reflexivity.
Defined.

(** X14: every question has a place on the form: when the template is
    readable, has a first page, and the canvas accepts the texts, the
    non-empty answer of any question of the list appears on the first page
    of the completed document, at the coordinates of the field that bears
    the question's key. *)
Theorem every_answer_is_printed (w : World) (a : gmap string string)
    (tpl : list page) (pg0 : page) (j : nat) (q : Question) (v : string) :
  template w = Readable tpl ->
  draws_ok w a PDF_FIELD_POSITIONS ->
  tpl !! 0%nat = Some pg0 ->
  QUESTIONS !! j = Some q ->
  a !! key q = Some v ->
  v <> "" ->
  exists out pg x y,
    fill_pdf w a = Ok out /\
    out !! 0%nat = Some pg /\
    (key q, (0, x, y)) ∈ PDF_FIELD_POSITIONS /\
    answer_text x y v ∈ pg.
Proof.
  intros Ht Hok Hpg Hq Ha Hv.
  destruct (fill_pdf_pages w a tpl Ht Hok) as (out & Hf & Hpages).
  pose proof QUESTIONS_have_fields as Hk. rewrite Forall_forall in Hk.
  specialize (Hk q (list_elem_of_lookup_2 _ _ _ Hq)).
  apply list_elem_of_fmap in Hk as ([k [[p x] y]] & Hkey & Hin). cbn in Hkey. subst k.
  pose proof PDF_FIELD_POSITIONS_pages as Hp. rewrite Forall_forall in Hp.
  specialize (Hp _ Hin). cbn in Hp. subst p.
  exists out. eexists _, x, y. split; [exact Hf|]. split; [exact (Hpages _ _ Hpg)|].
  split; [exact Hin|]. apply elem_of_app. right. apply elem_of_page_texts.
  exists (key q), x, y. rewrite Ha. cbn. done.
Qed.

Lemma every_answer_is_printed_witness :
  exists out pg x y,
    fill_pdf (mkWorld (Readable [[Native "page 1"]; [Native "page 2"]]) (fun _ => None))
             (<["full_name" := "Jane Doe"]> (answers default_state)) = Ok out /\
    out !! 0%nat = Some pg /\
    (key (mkQuestion "full_name" "Your full legal name" "text" None "Jane Doe"),
     (0, x, y)) ∈ PDF_FIELD_POSITIONS /\
    answer_text x y "Jane Doe" ∈ pg.
Proof.
  apply (every_answer_is_printed
           (mkWorld (Readable [[Native "page 1"]; [Native "page 2"]]) (fun _ => None))
           (<["full_name" := "Jane Doe"]> (answers default_state))
           [[Native "page 1"]; [Native "page 2"]] [Native "page 1"] 0
           (mkQuestion "full_name" "Your full legal name" "text" None "Jane Doe")
           "Jane Doe").
  - reflexivity.
  - intros k p x y _ _. reflexivity.
  - reflexivity.
  - reflexivity.
  - reflexivity.
  - discriminate.
Defined.

(** ** Whole numbers *)

Lemma div_half_even_1 n : div_half_even n 1 = n.
Proof. unfold div_half_even. rewrite Z.div_1_r, Z.mod_1_r. reflexivity. Qed.

Lemma round_double_int s n :
  0 < n < 2 ^ 53 ->
  exists k, 0 <= k <= 52 /\
    round_double s n 1 = S754_finite s (Z.to_pos (n * 2 ^ k)) (- k).
Proof.
  intros Hn.
  pose proof (Z.log2_spec n ltac:(lia)) as [Hlo Hhi].
  assert (Z.log2 n < 53) as HL1 by (apply Z.log2_lt_pow2; lia).
  pose proof (Z.log2_nonneg n) as HL0.
  exists (52 - Z.log2 n). split; [lia|].
  unfold round_double. change (Z.log2 1) with 0. cbv zeta.
  remember (52 - Z.log2 n) as k eqn:Hk.
  replace (Z.log2 n - 0 - 52) with (- k) by lia.
  assert (Hp : 2 ^ Z.log2 n * 2 ^ k = 2 ^ 52) by (rewrite <- Z.pow_add_r by lia; f_equal; lia).
  assert (Hk0 : 0 < 2 ^ k) by (apply Z.pow_pos_nonneg; lia).
  rewrite Z.pow_succ_r in Hhi by lia.
  change (2 ^ 53) with 9007199254740992 in *.
  change (2 ^ 52) with 4503599627370496 in *.
  assert (Hq : 4503599627370496 <= n * 2 ^ k < 9007199254740992) by nia.
  assert (Hsc : (if - k <? 0 then (n * 2 ^ (- - k)) / 1 else n / (1 * 2 ^ (- k)))
                = n * 2 ^ k).
  { rewrite Z.opp_involutive. destruct (Z.ltb_spec (- k) 0); [apply Z.div_1_r|].
    assert (k = 0) as -> by lia. change (1 * 2 ^ (- 0)) with 1. change (2 ^ 0) with 1.
    rewrite Z.div_1_r. lia. }
  assert (Hdv : (if - k <? 0 then div_half_even (n * 2 ^ (- - k)) 1
                 else div_half_even n (1 * 2 ^ (- k))) = n * 2 ^ k).
  { rewrite Z.opp_involutive. destruct (Z.ltb_spec (- k) 0); [apply div_half_even_1|].
    assert (k = 0) as -> by lia. change (1 * 2 ^ (- 0)) with 1. change (2 ^ 0) with 1.
    rewrite div_half_even_1. lia. }
  rewrite (proj2 (Z.eqb_neq n 0)) by lia.
  rewrite Hsc. rewrite (proj2 (Z.leb_le 4503599627370496 (n * 2 ^ k))) by lia.
  rewrite (Z.max_l (- k) (-1074)) by lia. rewrite Hdv.
  rewrite (proj2 (Z.eqb_neq (n * 2 ^ k) 9007199254740992)) by lia.
  rewrite (proj2 (Z.eqb_neq (n * 2 ^ k) 0)) by lia.
  rewrite (proj2 (Z.ltb_ge 971 (- k))) by lia. reflexivity.
Qed.

Lemma scaled_int_back s n k :
  0 < n -> 0 <= k ->
  is_integer (S754_finite s (Z.to_pos (n * 2 ^ k)) (- k)) = true /\
  int_of_float (S754_finite s (Z.to_pos (n * 2 ^ k)) (- k)) = Ok (if s then - n else n).
Proof.
  intros Hn Hk.
  assert (Hk0 : 0 < 2 ^ k) by (apply Z.pow_pos_nonneg; lia).
  unfold is_integer, int_of_float. rewrite Z2Pos.id by nia. rewrite Z.opp_involutive.
  destruct (Z.leb_spec 0 (- k)).
  - assert (k = 0) as -> by lia. change (2 ^ (- 0)) with 1. change (2 ^ 0) with 1.
    rewrite !Z.mul_1_r. split; reflexivity.
  - rewrite Z_mod_mult, Z_div_mult by lia. split; reflexivity.
Qed.

(** X15: a whole number delivered as an int is stored as typed: for every
    integer of magnitude below 2^53, normalisation under type number gives
    the decimal text of that same integer, with no rounding and no
    fractional part. *)
Theorem whole_numbers_stored_exactly (z : Z) :
  Z.abs z < 2 ^ 53 ->
  normalize_value (VInt z) "number" = Ok (str_int z).
Proof.
  intros Hz. destruct (Z.eq_dec z 0) as [->|Hne]; [vm_compute; reflexivity|].
  unfold normalize_value, py_float. change (String.eqb "number" "number") with true.
  cbv iota.
  destruct (round_double_int (z <? 0) (Z.abs z)) as (k & Hk & ->); [lia|].
  destruct (scaled_int_back (z <? 0) (Z.abs z) k) as [Hi Hf]; [lia..|].
  unfold mbind, py_bind, try_except. rewrite Hi, Hf. cbv beta iota. do 2 f_equal.
  destruct (Z.ltb_spec z 0); lia.
Qed.

Lemma whole_numbers_stored_exactly_witness :
  normalize_value (VInt 1500) "number" = Ok (str_int 1500).
Proof.
  apply (whole_numbers_stored_exactly 1500). vm_compute. reflexivity.
Defined.

(** ** The explanation *)

(** X16: [explain_question] never raises, whatever the step of the state
    and whatever the chat service does.  Without an API key, or with an
    empty one, it returns the fixed sentence about the missing key.  With a
    key it asks about the question at the step clamped into the list, and
    returns the content of the reply with surrounding white space removed,
    or, when the request raised, the sentence
    [Could not generate explanation right now: ] followed by the message of
    the exception. *)
Theorem explain_question_never_raises (x : Explainer) (st : State) :
  exists out,
    explain_question x st = Ok out /\
    match OPENAI_API_KEY x with
    | None | Some "" =>
        out = "Explanation unavailable: OPENAI_API_KEY is not configured."
    | Some api_key =>
        exists q,
          QUESTIONS !! Z.to_nat (clamp (step st)) = Some q /\
          match chat_content x api_key "gpt-4o-mini" (float_of_decimal false 2 (-1))
                  "You provide plain-language legal form guidance." (explain_prompt q) with
          | Ok content => out = py_strip content
          | Raise e => out = "Could not generate explanation right now: " +:+ exn_msg e
          end
    end.
Proof.
  unfold explain_question.
  destruct (OPENAI_API_KEY x) as [[|c api_key]|]; [by eexists| |by eexists].
  destruct (current_question_ok (step st)) as (q & -> & Hq).
  unfold mbind, py_bind, try_except.
  destruct (chat_content x _ _ _ _ (explain_prompt q)) as [content|e] eqn:E;
    eexists; (split; [reflexivity|]); exists q; (split; [exact Hq|]);
    rewrite E; reflexivity.
Qed.

(** ** Why a render fails *)

Lemma draw_fields_refused w a i fields : forall c e,
  draw_fields w a i fields c = Raise e ->
  exists k x y,
    (k, (i, x, y)) ∈ fields /\ default "" (a !! k) <> "" /\
    draw_failure w (default "" (a !! k)) = Some (exn_msg e).
Proof.
  induction fields as [|[k' [[p' x'] y']] fields IH]; intros c e; cbn; [discriminate|].
  destruct (Z.eqb_spec p' i) as [->|Hp]; cbn.
  - destruct (String.eqb_spec (default "" (a !! k')) "") as [Hv|Hv]; cbn.
    + intros H. destruct (IH _ _ H) as (k & x & y & Hin & Hk).
      exists k, x, y. split; [by right|exact Hk].
    + unfold drawString at 1.
      destruct (draw_failure w (default "" (a !! k'))) as [msg|] eqn:Hf; cbn.
      * intros [= <-]. exists k', x', y'. split; [by left|]. split; [exact Hv|exact Hf].
      * intros H. destruct (IH _ _ H) as (k & x & y & Hin & Hk).
        exists k, x, y. split; [by right|exact Hk].
  - intros H. destruct (IH _ _ H) as (k & x & y & Hin & Hk).
    exists k, x, y. split; [by right|exact Hk].
Qed.

Lemma draw_pages_refused w a idxs : forall c e,
  draw_pages w a idxs c = Raise e ->
  exists k p x y,
    p ∈ idxs /\ (k, (p, x, y)) ∈ PDF_FIELD_POSITIONS /\ default "" (a !! k) <> "" /\
    draw_failure w (default "" (a !! k)) = Some (exn_msg e).
Proof.
  induction idxs as [|i idxs IH]; intros c e; cbn; [discriminate|].
  destruct (draw_fields w a i PDF_FIELD_POSITIONS c) as [c1|e1] eqn:E; cbn.
  - intros H. destruct (IH _ _ H) as (k & p & x & y & Hp & Hk).
    exists k, p, x, y. split; [by right|exact Hk].
  - intros [= <-]. destruct (draw_fields_refused _ _ _ _ _ _ E) as (k & x & y & Hk).
    exists k, i, x, y. split; [by left|exact Hk].
Qed.

(** X17: a render fails for one of three reasons only.  When [fill_pdf]
    raises, either the template is missing and the error is a
    [FileNotFoundError]; or the template is unreadable and the error is the
    reader's; or the template was read and the error is the canvas's, raised
    for the non-empty answer of a field placed on a page of the template,
    with the canvas's own message.  In particular no page index of the merge
    is ever out of range. *)
Theorem fill_pdf_failures (w : World) (a : gmap string string) (e : exn) :
  fill_pdf w a = Raise e ->
  match template w with
  | Missing => exn_class e = FileNotFoundError
  | Unreadable msg => e = Exn PdfReadError msg
  | Readable tpl =>
      exn_class e = CanvasError /\
      exists k p x y,
        (k, (p, x, y)) ∈ PDF_FIELD_POSITIONS /\ 0 <= p < len tpl /\
        default "" (a !! k) <> "" /\
        draw_failure w (default "" (a !! k)) = Some (exn_msg e)
  end.
Proof.
  intros H. destruct (template w) as [|msg|tpl] eqn:Ht.
  - unfold fill_pdf in H. rewrite Ht in H. by injection H as <-.
  - unfold fill_pdf in H. rewrite Ht in H. by injection H as <-.
  - rewrite (fill_pdf_readable w a tpl Ht) in H.
    destruct (create_overlay_pdf w a (len tpl)) as [ov|e1] eqn:E; cbn in H; [discriminate|].
    injection H as ->. split; [eapply create_overlay_pdf_raise, E|].
    unfold create_overlay_pdf in E.
    destruct (draw_pages w a (range (len tpl)) new_canvas) as [c|e1] eqn:E1; cbn in E;
      [discriminate|].
    injection E as ->.
    destruct (draw_pages_refused _ _ _ _ _ E1) as (k & p & x & y & Hp & Hin & Hk).
    exists k, p, x, y. split; [exact Hin|]. split; [by apply range_bounds|exact Hk].
Qed.

Lemma fill_pdf_failures_witness :
  exn_class (Exn CanvasError "cannot draw text") = CanvasError /\
  exists k p x y,
    (k, (p, x, y)) ∈ PDF_FIELD_POSITIONS /\ 0 <= p < len [[Native "form"]] /\
    default "" (two_answers !! k) <> "" /\
    draw_failure (refusing_world "Jane Doe") (default "" (two_answers !! k))
      = Some (exn_msg (Exn CanvasError "cannot draw text")).
Proof.
  apply (fill_pdf_failures (refusing_world "Jane Doe") two_answers
           (Exn CanvasError "cannot draw text")).
  vm_compute. reflexivity.
Defined.
